(** * Lesson-enrichment pipeline of [src/backend/routes/test.js]

    Shallow embedding of the enrichment script [test()]: the retry loop
    around the generator call, the fence stripping and [JSON.parse] of the
    model text, the positional reconciliation against the course tree, the
    per-block validation filter and the nested Prisma [lesson.update] on the
    relational store of [src/unnamed/part_000] (the SQL migration).

    JavaScript strings are sequences of UTF-16 code units, modelled as
    [list N]; JSON values are the values [JSON.parse] can return. *)

From Stdlib Require Import ZArith NArith List String Ascii Bool Lia.
Import ListNotations.
Open Scope list_scope.
Set Warnings "-register-all".

(* ------------------------------------------------------------------ *)
(** ** JavaScript strings and JSON values *)

Definition jstr := list N.

(** ASCII literal to a JS string. *)
Definition js (s : string) : jstr :=
  map N_of_ascii (list_ascii_of_string s).

(** ASCII literal with ['] standing for a double quote, for JSON texts. *)
Definition jsq (s : string) : jstr :=
  map (fun c => if N.eqb c 39 then 34%N else c) (js s).

Fixpoint jstr_eqb (a b : jstr) : bool :=
  match a, b with
  | [], [] => true
  | x :: a', y :: b' => N.eqb x y && jstr_eqb a' b'
  | _, _ => false
  end.

(** Values produced by [JSON.parse]. A number is [m * 10^e]. An object
    keeps its members in text order; duplicate keys are resolved by [get]
    (the last one wins, as in [JSON.parse]). *)
Inductive json : Type :=
| JNull
| JBool (b : bool)
| JNum (m : Z) (e : Z)
| JStr (s : jstr)
| JArr (l : list json)
| JObj (kvs : list (jstr * json)).

(** A JS value read from JSON data: [None] is [undefined]. *)
Definition jsval := option json.

(** Property read [v.k] on a JSON value. Arrays, strings, numbers and
    booleans have no own property of any name the script reads ([type],
    [text], [modules], [lessons], [content], ...), so only objects answer. *)
Definition get (v : json) (k : jstr) : jsval :=
  match v with
  | JObj kvs =>
      fold_left (fun acc kv => if jstr_eqb (fst kv) k then Some (snd kv) else acc)
        kvs None
  | _ => None
  end.

(** Optional-chaining property read [v?.k]. *)
Definition get_opt (v : jsval) (k : jstr) : jsval :=
  match v with Some v' => get v' k | None => None end.

(** Decimal rendering of an index, the property key [o[i]] reads. *)
Fixpoint dec_aux (fuel : nat) (n : N) (acc : jstr) : jstr :=
  match fuel with
  | O => acc
  | S f =>
      if N.ltb n 10 then (48 + n)%N :: acc
      else dec_aux f (N.div n 10) ((48 + N.modulo n 10)%N :: acc)
  end.

Definition index_key (i : nat) : jstr := dec_aux (S i) (N.of_nat i) [].

(** Indexed read [v[i]]: array element, character of a string, or the
    property named by the decimal index on an object. *)
Definition index (v : json) (i : nat) : jsval :=
  match v with
  | JArr l => nth_error l i
  | JStr s => option_map (fun c => JStr [c]) (nth_error s i)
  | JObj _ => get v (index_key i)
  | _ => None
  end.

(** Optional-chaining indexed read [v?.[i]]. *)
Definition index_opt (v : jsval) (i : nat) : jsval :=
  match v with Some (JNull) => None | Some v' => index v' i | None => None end.

(** JavaScript truthiness ([NaN] and [-0] do not arise from JSON text). *)
Definition truthy (v : jsval) : bool :=
  match v with
  | None | Some JNull => false
  | Some (JBool b) => b
  | Some (JNum m _) => negb (Z.eqb m 0)
  | Some (JStr s) => negb (jstr_eqb s [])
  | Some (JArr _) | Some (JObj _) => true
  end.

(** [a || d] with a JSON default. *)
Definition or_default (v : jsval) (d : json) : json :=
  match v with
  | Some v' => if truthy v then v' else d
  | None => d
  end.

(** [v == null]: loose equality with [null] holds for [null] and [undefined]. *)
Definition loose_null (v : jsval) : bool :=
  match v with None | Some JNull => true | _ => false end.

Definition is_array (v : jsval) : bool :=
  match v with Some (JArr _) => true | _ => false end.

(** [v === s] for a string literal [s]. *)
Definition str_is (v : jsval) (s : jstr) : bool :=
  match v with Some (JStr t) => jstr_eqb t s | _ => false end.

(** [['paragraph', 'video', 'mcq'].includes(v)]. *)
Definition block_types : list jstr := [js "paragraph"; js "video"; js "mcq"].

Definition includes_type (v : jsval) : bool :=
  existsb (str_is v) block_types.

(* ------------------------------------------------------------------ *)
(** ** [JSON.parse] *)

(** JSON whitespace: tab, line feed, carriage return, space. *)
Definition json_ws (c : N) : bool :=
  N.eqb c 9 || N.eqb c 10 || N.eqb c 13 || N.eqb c 32.

Fixpoint skip_ws (s : jstr) : jstr :=
  match s with
  | c :: r => if json_ws c then skip_ws r else s
  | [] => []
  end.

Definition is_digit (c : N) : bool := (48 <=? c)%N && (c <=? 57)%N.

Fixpoint span_digits (s : jstr) : jstr * jstr :=
  match s with
  | c :: r =>
      if is_digit c then let (d, r') := span_digits r in (c :: d, r') else ([], s)
  | [] => ([], [])
  end.

Definition digits_value (d : jstr) : Z :=
  fold_left (fun acc c => (acc * 10 + Z.of_N (c - 48))%Z) d 0%Z.

Definition hex_value (c : N) : option N :=
  if is_digit c then Some (c - 48)%N
  else if (97 <=? c)%N && (c <=? 102)%N then Some (c - 87)%N
  else if (65 <=? c)%N && (c <=? 70)%N then Some (c - 55)%N
  else None.

Definition hex4 (a b c d : N) : option N :=
  match hex_value a, hex_value b, hex_value c, hex_value d with
  | Some x, Some y, Some z, Some w => Some (((x * 16 + y) * 16 + z) * 16 + w)%N
  | _, _, _, _ => None
  end.

(** Body of a string literal, after the opening quote: escapes decoded to
    UTF-16 code units, raw control characters refused. *)
Fixpoint p_string_body (s : jstr) (acc : jstr) : option (jstr * jstr) :=
  match s with
  | [] => None
  | c :: r =>
      if N.eqb c 34 then Some (rev acc, r)
      else if N.eqb c 92 then
        match r with
        | [] => None
        | e :: r' =>
            if N.eqb e 34 || N.eqb e 92 || N.eqb e 47 then p_string_body r' (e :: acc)
            else if N.eqb e 98 then p_string_body r' (8%N :: acc)
            else if N.eqb e 102 then p_string_body r' (12%N :: acc)
            else if N.eqb e 110 then p_string_body r' (10%N :: acc)
            else if N.eqb e 114 then p_string_body r' (13%N :: acc)
            else if N.eqb e 116 then p_string_body r' (9%N :: acc)
            else if N.eqb e 117 then
              match r' with
              | h1 :: h2 :: h3 :: h4 :: r'' =>
                  match hex4 h1 h2 h3 h4 with
                  | Some u => p_string_body r'' (u :: acc)
                  | None => None
                  end
              | _ => None
              end
            else None
        end
      else if (c <? 32)%N then None
      else p_string_body r (c :: acc)
  end.

(** Number literal: [-?(0|[1-9][0-9]* )(.[0-9]+)?([eE][+-]?[0-9]+)?]. *)
Definition p_number (s : jstr) : option (json * jstr) :=
  let '(neg, s1) := match s with 45%N :: r => (true, r) | _ => (false, s) end in
  let int_part :=
    match s1 with
    | 48%N :: r => Some ([48%N], r)
    | c :: _ => if is_digit c then Some (span_digits s1) else None
    | [] => None
    end in
  match int_part with
  | None => None
  | Some (di, s2) =>
      let frac :=
        match s2 with
        | 46%N :: r =>
            let (df, r') := span_digits r in
            match df with [] => None | _ => Some (df, r') end
        | _ => Some ([], s2)
        end in
      match frac with
      | None => None
      | Some (df, s3) =>
          let expo :=
            match s3 with
            | e :: r =>
                if N.eqb e 101 || N.eqb e 69 then
                  let '(eneg, r1) :=
                    match r with
                    | 45%N :: r1 => (true, r1)
                    | 43%N :: r1 => (false, r1)
                    | _ => (false, r)
                    end in
                  let (de, r2) := span_digits r1 in
                  match de with
                  | [] => None
                  | _ => Some ((if eneg then - digits_value de else digits_value de)%Z, r2)
                  end
                else Some (0%Z, s3)
            | [] => Some (0%Z, s3)
            end in
          match expo with
          | None => None
          | Some (ex, s4) =>
              let m := digits_value (di ++ df) in
              Some (JNum (if neg then - m else m)%Z (ex - Z.of_nat (List.length df))%Z, s4)
          end
      end
  end.

(** Recursive descent over values, array elements and object members.
    Every call consumes input or hands the same input to a call that does,
    so the fuel [2 * length + 2] given by [JSON_parse] never runs out. *)
Fixpoint p_value (fuel : nat) (s : jstr) : option (json * jstr) :=
  match fuel with
  | O => None
  | S f =>
      match skip_ws s with
      | 123%N :: r =>
          match skip_ws r with
          | 125%N :: r' => Some (JObj [], r')
          | _ => p_members f r []
          end
      | 91%N :: r =>
          match skip_ws r with
          | 93%N :: r' => Some (JArr [], r')
          | _ => p_elems f r []
          end
      | 34%N :: r =>
          match p_string_body r [] with
          | Some (str, r') => Some (JStr str, r')
          | None => None
          end
      | 116%N :: 114%N :: 117%N :: 101%N :: r => Some (JBool true, r)
      | 102%N :: 97%N :: 108%N :: 115%N :: 101%N :: r => Some (JBool false, r)
      | 110%N :: 117%N :: 108%N :: 108%N :: r => Some (JNull, r)
      | s' => p_number s'
      end
  end
with p_elems (fuel : nat) (s : jstr) (acc : list json) : option (json * jstr) :=
  match fuel with
  | O => None
  | S f =>
      match p_value f s with
      | None => None
      | Some (v, r) =>
          match skip_ws r with
          | 44%N :: r' => p_elems f r' (v :: acc)
          | 93%N :: r' => Some (JArr (rev (v :: acc)), r')
          | _ => None
          end
      end
  end
with p_members (fuel : nat) (s : jstr) (acc : list (jstr * json))
  : option (json * jstr) :=
  match fuel with
  | O => None
  | S f =>
      match skip_ws s with
      | 34%N :: r =>
          match p_string_body r [] with
          | None => None
          | Some (k, r1) =>
              match skip_ws r1 with
              | 58%N :: r2 =>
                  match p_value f r2 with
                  | None => None
                  | Some (v, r3) =>
                      match skip_ws r3 with
                      | 44%N :: r4 => p_members f r4 ((k, v) :: acc)
                      | 125%N :: r4 => Some (JObj (rev ((k, v) :: acc)), r4)
                      | _ => None
                      end
                  end
              | _ => None
              end
          end
      | _ => None
      end
  end.

(** [JSON.parse(x)]: [None] is a thrown [SyntaxError]. An [undefined]
    argument is converted to the text ["undefined"], which never parses. *)
Definition JSON_parse (x : option jstr) : option json :=
  match x with
  | None => None
  | Some s =>
      match p_value (2 * List.length s + 2) s with
      | Some (v, rest) => match skip_ws rest with [] => Some v | _ => None end
      | None => None
      end
  end.

(* ------------------------------------------------------------------ *)
(** ** Fence stripping of the model text *)

(** White space and line terminators removed by [String.prototype.trim]. *)
Definition js_ws (c : N) : bool :=
  existsb (N.eqb c)
    [9; 10; 11; 12; 13; 32; 160; 5760; 8192; 8193; 8194; 8195; 8196; 8197;
     8198; 8199; 8200; 8201; 8202; 8232; 8233; 8239; 8287; 12288; 65279]%N.

Fixpoint trim_start (s : jstr) : jstr :=
  match s with
  | c :: r => if js_ws c then trim_start r else s
  | [] => []
  end.

Definition trim (s : jstr) : jstr := rev (trim_start (rev (trim_start s))).

Fixpoint strip_prefix (p s : jstr) : option jstr :=
  match p, s with
  | [], _ => Some s
  | x :: p', y :: s' => if N.eqb x y then strip_prefix p' s' else None
  | _ :: _, [] => None
  end.

Definition fence_json : jstr := js "```json".
Definition fence : jstr := js "```".

(** [.replace(/^```json/, '')]. *)
Definition replace_leading_fence (s : jstr) : jstr :=
  match strip_prefix fence_json s with Some r => r | None => s end.

(** [.replace(/```$/, '')]: the only match of [```$] is the last three
    code units. *)
Definition replace_trailing_fence (s : jstr) : jstr :=
  match strip_prefix (rev fence) (rev s) with
  | Some r => rev r
  | None => s
  end.

(** [output.trim().replace(/^```json/, '').replace(/```$/, '').trim()]. *)
Definition clean_output (s : jstr) : jstr :=
  trim (replace_trailing_fence (replace_leading_fence (trim s))).

(* ------------------------------------------------------------------ *)
(** ** Diagnostics trace *)

(** Console output and the blocking delay, in the order the script
    produces them. Lesson titles and offending values are kept so that the
    diagnostics can be inspected. *)
Inductive event : Type :=
| EvAttempt (n : nat)                     (* Attempt n to generate content... *)
| EvResponse                              (* API response received *)
| EvGenFailed (n : nat)                   (* AI generation failed (attempt n) *)
| EvMaxAttempts                           (* Max attempts reached. Aborting. *)
| EvSleep (ms : nat)                      (* await setTimeout(resolve, ms) *)
| EvNoModules (parsed : json)             (* does not contain a valid modules array *)
| EvParseFailed (raw : option jstr)       (* JSON parsing failed + Raw Gemini output *)
| EvInvalidType (title : jstr) (b : json) (* Invalid block type in lesson *)
| EvInvalidMcq (title : jstr) (b : json)  (* Invalid MCQ block in lesson *)
| EvNoValidBlocks (title : jstr)          (* No valid content blocks ... Skipping *)
| EvUpdated (title : jstr)                (* Updated lesson *)
| EvAllDone                               (* All lessons enriched and saved *)
| EvDbFailed                              (* Database update failed *)
| EvCourseNotFound.

(* ------------------------------------------------------------------ *)
(** ** Parsing and shape check of the model text (lines 117-146) *)

Definition k_modules : jstr := js "modules".
Definition k_lessons : jstr := js "lessons".
Definition k_content : jstr := js "content".
Definition k_type : jstr := js "type".
Definition k_text : jstr := js "text".
Definition k_language : jstr := js "language".
Definition k_question : jstr := js "question".
Definition k_options : jstr := js "options".
Definition k_answer : jstr := js "answer".
Definition k_explanation : jstr := js "explanation".

(** [v.k] where [v] may be [null]: [None] is the thrown [TypeError]. *)
Definition read_prop (v : json) (k : jstr) : option jsval :=
  match v with JNull => None | _ => Some (get v k) end.

(** [parsed.filter((block) => block.type && [...].includes(block.type))]. *)
Fixpoint flat_filter (bs : list json) : option (list json) :=
  match bs with
  | [] => Some []
  | b :: r =>
      match read_prop b k_type, flat_filter r with
      | Some ty, Some r' =>
          Some (if truthy ty && includes_type ty then b :: r' else r')
      | _, _ => None
      end
  end.

Inductive parse_result : Type :=
| Parsed (enriched : json)
| ParseFailed (raw : option jstr)    (* caught exception, [output] logged *)
| ShapeRejected (parsed : json).     (* no [modules] array and not an array *)

(** The [try] block of lines 118-146 applied to [output]. *)
Definition parse_stage (output : option jstr) : parse_result :=
  match JSON_parse output with
  | None => ParseFailed output
  | Some parsed =>
      match read_prop parsed k_modules with
      | None => ParseFailed output
      | Some mods =>
          if negb (truthy mods) || negb (is_array mods) then
            match parsed with
            | JArr bs =>
                match flat_filter bs with
                | Some kept =>
                    Parsed (JObj [(k_modules,
                      JArr [JObj [(k_lessons,
                        JArr [JObj [(k_content, JArr kept)]])]])])
                | None => ParseFailed output
                end
            | _ => ShapeRejected parsed
            end
          else Parsed parsed
      end
  end.

(* ------------------------------------------------------------------ *)
(** ** Per-block validation (lines 161-171) *)

(** The filter callback on one block: [None] is the [TypeError] of reading
    [block.type] on [null]; otherwise whether the block is kept and the
    warning logged when it is not. *)
Definition validate_cb (title : jstr) (b : json) : option (bool * list event) :=
  match read_prop b k_type with
  | None => None
  | Some ty =>
      if negb (truthy ty) || negb (includes_type ty) then
        Some (false, [EvInvalidType title b])
      else if str_is ty (js "mcq") &&
              (negb (truthy (get b k_question)) || negb (is_array (get b k_options))
               || loose_null (get b k_answer) || negb (truthy (get b k_explanation)))
      then Some (false, [EvInvalidMcq title b])
      else Some (true, [])
  end.

(** [contentBlocks.filter(...)] on an array. *)
Fixpoint valid_blocks (title : jstr) (bs : list json) : option (list json * list event) :=
  match bs with
  | [] => Some ([], [])
  | b :: r =>
      match validate_cb title b with
      | None => None
      | Some (keep, ev) =>
          match valid_blocks title r with
          | None => None
          | Some (kept, evs) => Some (if keep then b :: kept else kept, ev ++ evs)
          end
      end
  end.

(** The warnings [contentBlocks.filter(...)] has printed when it stops:
    those of every block before the first [null], on which reading
    [block.type] throws. *)
Fixpoint filter_warnings (title : jstr) (bs : list json) : list event :=
  match bs with
  | [] => []
  | b :: r =>
      match validate_cb title b with
      | None => []
      | Some (_, ev) => ev ++ filter_warnings title r
      end
  end.

(* ------------------------------------------------------------------ *)
(** ** The [lesson.update] payload (lines 178-210) *)

(** [String.prototype.toUpperCase] on ASCII; the filter admits only the
    three lowercase ASCII literals as [block.type]. *)
Definition to_upper (s : jstr) : jstr :=
  map (fun c => if (97 <=? c)%N && (c <=? 122)%N then (c - 32)%N else c) s.

Record McqCreate : Type := {
  mc_question : jsval;
  mc_options : jsval;
  mc_answer : jsval;
  mc_explanation : jsval
}.

Record BlockCreate : Type := {
  bc_order : nat;
  bc_type : jstr;
  bc_text : json;          (* block.text || null *)
  bc_language : json;      (* block.language || null *)
  bc_videoUrl : jsval;     (* block.type === 'video' ? block.text : null *)
  bc_mcq : option McqCreate
}.

Record LessonUpdate : Type := {
  lu_where : N;
  lu_isEnriched : bool;
  lu_objectives : list jstr;
  lu_blocks_deleteMany : bool;   (* contentBlocks.deleteMany: {} *)
  lu_blocks_create : list BlockCreate;
  lu_videos_deleteMany : bool;   (* videos.deleteMany: {} *)
  lu_videos_create : list jsval  (* query of each VideoSearch *)
}.

Definition type_string (b : json) : jstr :=
  match get b k_type with Some (JStr s) => s | _ => [] end.

Definition block_create (index : nat) (b : json) : BlockCreate :=
  {| bc_order := index;
     bc_type := to_upper (type_string b);
     bc_text := or_default (get b k_text) JNull;
     bc_language := or_default (get b k_language) JNull;
     bc_videoUrl := if str_is (get b k_type) (js "video") then get b k_text else Some JNull;
     bc_mcq :=
       if str_is (get b k_type) (js "mcq") then
         Some {| mc_question := get b k_question; mc_options := get b k_options;
                 mc_answer := get b k_answer; mc_explanation := get b k_explanation |}
       else None |}.

(** [validBlocks.map((block, index) => ...)]. *)
Fixpoint map_index (start : nat) (bs : list json) : list BlockCreate :=
  match bs with
  | [] => []
  | b :: r => block_create start b :: map_index (S start) r
  end.

Definition lesson_update (lesson_id : N) (valid : list json) : LessonUpdate :=
  {| lu_where := lesson_id;
     lu_isEnriched := true;
     lu_objectives := [];
     lu_blocks_deleteMany := true;
     lu_blocks_create := map_index 0 valid;
     lu_videos_deleteMany := true;
     lu_videos_create :=
       map (fun v => get v k_text)
         (filter (fun b => str_is (get b k_type) (js "video")) valid) |}.

(* ------------------------------------------------------------------ *)
(** ** Relational store ([src/unnamed/part_000]) *)

Inductive BlockType : Type := HEADING | PARAGRAPH | CODE | VIDEO | MCQ.

(** Rows, with the columns the pipeline reads or writes. Generated ids
    (cuid strings in the database) are drawn from a counter [next_id]. *)
Record LessonRow : Type := {
  l_id : N;
  l_title : jstr;
  l_objectives : list jstr;
  l_isEnriched : bool
}.

Record ContentBlockRow : Type := {
  cb_id : N;
  cb_order : Z;
  cb_type : BlockType;
  cb_text : option jstr;
  cb_language : option jstr;
  cb_videoUrl : option jstr;
  cb_lessonId : N;
  cb_mcqId : option N      (* FK to MCQOption, ON DELETE SET NULL *)
}.

Record MCQOptionRow : Type := {
  mo_id : N;
  mo_question : jstr;
  mo_options : list jstr;
  mo_answer : Z;
  mo_explanation : option jstr
}.

Record VideoSearchRow : Type := {
  vs_id : N;
  vs_query : jstr;
  vs_lessonId : N
}.

(** A course with its modules, each listing its lesson ids, in the order
    [course.findUnique({include: {modules: {include: {lessons: true}}}})]
    returns them. The query has no [orderBy], so that is the order the
    database happens to return; the lists fix it for one run, and nothing
    here relies on a later run reading the same order. *)
Record ModuleRow : Type := { m_title : jstr; m_lessons : list N }.
Record CourseRow : Type := { c_id : jstr; c_title : jstr; c_modules : list ModuleRow }.

Record db : Type := {
  courses : list CourseRow;
  lessons : list LessonRow;
  blocks : list ContentBlockRow;
  mcqs : list MCQOptionRow;
  videos : list VideoSearchRow;
  next_id : N
}.

Definition find_lesson (d : db) (id : N) : option LessonRow :=
  find (fun l => N.eqb (l_id l) id) (lessons d).

(** *** Prisma input conversion: [None] is a validation error. *)

(** [String?] column given a value ([null] or a string). *)
Definition p_opt_string (v : json) : option (option jstr) :=
  match v with JNull => Some None | JStr s => Some (Some s) | _ => None end.

(** [String?] column given a possibly [undefined] value (omitted = null). *)
Definition p_opt_string_u (v : jsval) : option (option jstr) :=
  match v with None => Some None | Some v' => p_opt_string v' end.

(** Required [String] column. *)
Definition p_string (v : jsval) : option jstr :=
  match v with Some (JStr s) => Some s | _ => None end.

Fixpoint p_strings (l : list json) : option (list jstr) :=
  match l with
  | [] => Some []
  | JStr s :: r => option_map (cons s) (p_strings r)
  | _ :: _ => None
  end.

(** [String[]] column. *)
Definition p_string_list (v : jsval) : option (list jstr) :=
  match v with Some (JArr l) => p_strings l | _ => None end.

(** [Int] column: a 32-bit integer value. *)
Definition p_int (v : jsval) : option Z :=
  let in_range z := if (-2147483648 <=? z)%Z && (z <=? 2147483647)%Z then Some z else None in
  match v with
  | Some (JNum m e) =>
      if (0 <=? e)%Z then in_range (m * 10 ^ e)%Z
      else if (m mod 10 ^ (- e) =? 0)%Z then in_range (m / 10 ^ (- e))%Z
      else None
  | _ => None
  end.

(** [BlockType] enum value. *)
Definition p_block_type (s : jstr) : option BlockType :=
  if jstr_eqb s (js "HEADING") then Some HEADING
  else if jstr_eqb s (js "PARAGRAPH") then Some PARAGRAPH
  else if jstr_eqb s (js "CODE") then Some CODE
  else if jstr_eqb s (js "VIDEO") then Some VIDEO
  else if jstr_eqb s (js "MCQ") then Some MCQ
  else None.

Record McqData : Type := {
  md_question : jstr; md_options : list jstr; md_answer : Z; md_explanation : option jstr
}.

Record BlockData : Type := {
  bd_order : Z; bd_type : BlockType; bd_text : option jstr; bd_language : option jstr;
  bd_videoUrl : option jstr; bd_mcq : option McqData
}.

Definition p_mcq (m : McqCreate) : option McqData :=
  match p_string (mc_question m), p_string_list (mc_options m),
        p_int (mc_answer m), p_opt_string_u (mc_explanation m) with
  | Some q, Some os, Some a, Some ex =>
      Some {| md_question := q; md_options := os; md_answer := a; md_explanation := ex |}
  | _, _, _, _ => None
  end.

Definition p_block (c : BlockCreate) : option BlockData :=
  match p_block_type (bc_type c), p_opt_string (bc_text c),
        p_opt_string (bc_language c), p_opt_string_u (bc_videoUrl c) with
  | Some ty, Some tx, Some lg, Some vu =>
      match bc_mcq c with
      | None =>
          Some {| bd_order := Z.of_nat (bc_order c); bd_type := ty; bd_text := tx;
                  bd_language := lg; bd_videoUrl := vu; bd_mcq := None |}
      | Some m =>
          option_map (fun md =>
            {| bd_order := Z.of_nat (bc_order c); bd_type := ty; bd_text := tx;
               bd_language := lg; bd_videoUrl := vu; bd_mcq := Some md |}) (p_mcq m)
      end
  | _, _, _, _ => None
  end.

Fixpoint all_some {A} (l : list (option A)) : option (list A) :=
  match l with
  | [] => Some []
  | Some x :: r => option_map (cons x) (all_some r)
  | None :: _ => None
  end.

(** Nested [create] of content blocks: an owned MCQOption row is inserted
    first and the block row references it. *)
Fixpoint insert_blocks (lid next : N) (bs : list BlockData)
  : list ContentBlockRow * list MCQOptionRow * N :=
  match bs with
  | [] => ([], [], next)
  | b :: r =>
      let '(mrows, mid, next1) :=
        match bd_mcq b with
        | Some md =>
            ([{| mo_id := next; mo_question := md_question md; mo_options := md_options md;
                 mo_answer := md_answer md; mo_explanation := md_explanation md |}],
             Some next, (next + 1)%N)
        | None => ([], None, next)
        end in
      let row := {| cb_id := next1; cb_order := bd_order b; cb_type := bd_type b;
                    cb_text := bd_text b; cb_language := bd_language b;
                    cb_videoUrl := bd_videoUrl b; cb_lessonId := lid; cb_mcqId := mid |} in
      let '(rows, ms, next2) := insert_blocks lid (next1 + 1)%N r in
      (row :: rows, mrows ++ ms, next2)
  end.

Fixpoint insert_videos (lid next : N) (qs : list jstr) : list VideoSearchRow * N :=
  match qs with
  | [] => ([], next)
  | q :: r =>
      let '(rows, next') := insert_videos lid (next + 1)%N r in
      ({| vs_id := next; vs_query := q; vs_lessonId := lid |} :: rows, next')
  end.

(** [prisma.lesson.update(...)] with the payload of [lesson_update]: the
    whole query is validated first and runs in one transaction; [None] is a
    rejected query (record not found or invalid input), the store being
    left as it was. [deleteMany: {}] runs before [create]. Deleting a
    ContentBlock leaves the MCQOption it references in place (the foreign
    key is on ContentBlock). *)
Definition prisma_lesson_update (d : db) (u : LessonUpdate) : option db :=
  let lid := lu_where u in
  match find_lesson d lid,
        all_some (map p_block (lu_blocks_create u)),
        all_some (map p_string (lu_videos_create u)) with
  | Some _, Some bds, Some qs =>
      let kept_blocks :=
        if lu_blocks_deleteMany u
        then filter (fun c => negb (N.eqb (cb_lessonId c) lid)) (blocks d) else blocks d in
      let kept_videos :=
        if lu_videos_deleteMany u
        then filter (fun v => negb (N.eqb (vs_lessonId v) lid)) (videos d) else videos d in
      let '(new_blocks, new_mcqs, next1) := insert_blocks lid (next_id d) bds in
      let '(new_videos, next2) := insert_videos lid next1 qs in
      Some {| courses := courses d;
              lessons := map (fun l => if N.eqb (l_id l) lid
                                      then {| l_id := l_id l; l_title := l_title l;
                                              l_objectives := lu_objectives u;
                                              l_isEnriched := lu_isEnriched u |}
                                      else l) (lessons d);
              blocks := kept_blocks ++ new_blocks;
              mcqs := mcqs d ++ new_mcqs;
              videos := kept_videos ++ new_videos;
              next_id := next2 |}
  | _, _, _ => None
  end.

(* ------------------------------------------------------------------ *)
(** ** Reconciliation loop (lines 150-221) *)

(** Writes against the store with a trace; a failed computation ([None])
    keeps the writes already made, as the script runs without a
    surrounding transaction. *)
Definition M (A : Type) : Type := db -> option A * db * list event.

Definition ret {A} (a : A) : M A := fun d => (Some a, d, []).

Definition bind {A B} (m : M A) (f : A -> M B) : M B :=
  fun d =>
    match m d with
    | (Some a, d1, e1) => let '(r, d2, e2) := f a d1 in (r, d2, e1 ++ e2)
    | (None, d1, e1) => (None, d1, e1)
    end.

Notation "x <- c1 ;; c2" := (bind c1 (fun x => c2))
  (at level 61, c1 at next level, right associativity).
Notation "c1 ;; c2" := (bind c1 (fun _ => c2)) (at level 61, right associativity).

(** A thrown exception ([TypeError] or a rejected query). *)
Definition throw {A} : M A := fun d => (None, d, []).

Definition tell (es : list event) : M unit := fun d => (Some tt, d, es).

Definition update (u : LessonUpdate) : M unit :=
  fun d =>
    match prisma_lesson_update d u with
    | Some d' => (Some tt, d', [])
    | None => (None, d, [])
    end.

(** [enrichedContent.modules?.[modIndex] || { lessons: [] }]. *)
Definition module_at (enriched : json) (modIndex : nat) : json :=
  or_default (index_opt (get enriched k_modules) modIndex)
    (JObj [(k_lessons, JArr [])]).

(** [(enrichedModule.lessons?.[lessonIndex] || { content: [] }).content || []]. *)
Definition lesson_content (enrichedModule : json) (lessonIndex : nat) : json :=
  let enrichedLesson :=
    or_default (index_opt (get enrichedModule k_lessons) lessonIndex)
      (JObj [(k_content, JArr [])]) in
  or_default (get enrichedLesson k_content) (JArr []).

(** Loop body for one lesson, given its [contentBlocks]. *)
Definition lesson_step (lesson : LessonRow) (contentBlocks : json) : M unit :=
  match contentBlocks with
  | JArr bs =>
      match valid_blocks (l_title lesson) bs with
      | None => tell (filter_warnings (l_title lesson) bs) ;; throw
      | Some (valid, warnings) =>
          tell warnings ;;
          match valid with
          | [] => tell [EvNoValidBlocks (l_title lesson)]
          | _ :: _ =>
              update (lesson_update (l_id lesson) valid) ;;
              tell [EvUpdated (l_title lesson)]
          end
      end
  | _ => throw    (* contentBlocks.filter is not a function *)
  end.

Fixpoint lessons_loop (enrichedModule : json) (lessonIndex : nat)
  (ls : list LessonRow) : M unit :=
  match ls with
  | [] => ret tt
  | lesson :: r =>
      lesson_step lesson (lesson_content enrichedModule lessonIndex) ;;
      lessons_loop enrichedModule (S lessonIndex) r
  end.

Fixpoint modules_loop (enriched : json) (modIndex : nat)
  (ms : list (list LessonRow)) : M unit :=
  match ms with
  | [] => ret tt
  | m :: r =>
      lessons_loop (module_at enriched modIndex) 0 m ;;
      modules_loop enriched (S modIndex) r
  end.

Definition reconcile (enriched : json) (course : list (list LessonRow)) : M unit :=
  modules_loop enriched 0 course.

(* ------------------------------------------------------------------ *)
(** ** Retry loop around the generator (lines 88-115) *)

(** Outcome of [ai.models.generateContent] at one attempt: a thrown error,
    or a response whose [text] may be [undefined]. *)
Inductive gen_outcome : Type :=
| GenThrows
| GenText (text : option jstr).

Definition maxAttempts : nat := 3.

Inductive retry_result : Type :=
| RetryAbort                      (* return after the last failed attempt *)
| Proceed (output : option jstr). (* loop left with [output] *)

(** The [while (attempt < maxAttempts)] loop; [fuel] is
    [maxAttempts - attempt]. [gen i] answers the call made at attempt [i]
    (0-based). [GenText None] fails at [output.trim()] inside the [try]. *)
Fixpoint retry_loop (gen : nat -> gen_outcome) (fuel attempt : nat)
  : list event * retry_result :=
  match fuel with
  | O => ([], Proceed None)
  | S f =>
      match gen attempt with
      | GenText (Some t) =>
          ([EvAttempt (S attempt); EvResponse], Proceed (Some (clean_output t)))
      | _ =>
          if Nat.eqb (S attempt) maxAttempts then
            ([EvAttempt (S attempt); EvGenFailed (S attempt); EvMaxAttempts], RetryAbort)
          else
            let '(evs, r) := retry_loop gen f (S attempt) in
            (EvAttempt (S attempt) :: EvGenFailed (S attempt) :: EvSleep 1000 :: evs, r)
      end
  end.

Definition retry (gen : nat -> gen_outcome) : list event * retry_result :=
  retry_loop gen maxAttempts 0.

(* ------------------------------------------------------------------ *)
(** ** The whole run [test()] *)

Inductive outcome : Type :=
| CourseNotFound | GenAborted | ParseAborted | ShapeAborted | DbAborted | Completed.

Definition find_course (d : db) (courseId : jstr) : option CourseRow :=
  find (fun c => jstr_eqb (c_id c) courseId) (courses d).

Definition fetch_lessons (d : db) (ids : list N) : list LessonRow :=
  fold_right (fun id acc =>
    match find_lesson d id with Some l => l :: acc | None => acc end) [] ids.

Definition course_tree (d : db) (c : CourseRow) : list (list LessonRow) :=
  map (fun m => fetch_lessons d (m_lessons m)) (c_modules c).

Definition test_run (d : db) (courseId : jstr) (gen : nat -> gen_outcome)
  : outcome * db * list event :=
  match find_course d courseId with
  | None => (CourseNotFound, d, [EvCourseNotFound])
  | Some c =>
      let tree := course_tree d c in
      let '(ev1, rr) := retry gen in
      match rr with
      | RetryAbort => (GenAborted, d, ev1)
      | Proceed output =>
          match parse_stage output with
          | ParseFailed raw => (ParseAborted, d, ev1 ++ [EvParseFailed raw])
          | ShapeRejected p => (ShapeAborted, d, ev1 ++ [EvNoModules p])
          | Parsed enriched =>
              match reconcile enriched tree d with
              | (Some _, d', ev2) => (Completed, d', ev1 ++ ev2 ++ [EvAllDone])
              | (None, d', ev2) => (DbAborted, d', ev1 ++ ev2 ++ [EvDbFailed])
              end
          end
      end
  end.

(* ------------------------------------------------------------------ *)
(** ** Notions used in the statements *)

(** The keep condition of the validation filter on a non-null block. *)
Definition mcq_fields_bad (b : json) : bool :=
  negb (truthy (get b k_question)) || negb (is_array (get b k_options))
  || loose_null (get b k_answer) || negb (truthy (get b k_explanation)).

Definition block_ok (b : json) : bool :=
  let ty := get b k_type in
  negb (negb (truthy ty) || negb (includes_type ty))
  && negb (str_is ty (js "mcq") && mcq_fields_bad b).

(** The warning the filter logs for a non-null block ([[]] when kept). *)
Definition block_warning (title : jstr) (b : json) : list event :=
  let ty := get b k_type in
  if negb (truthy ty) || negb (includes_type ty) then [EvInvalidType title b]
  else if str_is ty (js "mcq") && mcq_fields_bad b then [EvInvalidMcq title b]
  else [].

Definition not_null (b : json) : Prop := b <> JNull.

Definition lesson_blocks (d : db) (id : N) : list ContentBlockRow :=
  filter (fun c => N.eqb (cb_lessonId c) id) (blocks d).

Definition lesson_videos (d : db) (id : N) : list VideoSearchRow :=
  filter (fun v => N.eqb (vs_lessonId v) id) (videos d).

Definition video_blocks (valid : list json) : list json :=
  filter (fun b => str_is (get b k_type) (js "video")) valid.

(** A generator call that does not yield a usable response. *)
Definition gen_fails (o : gen_outcome) : Prop :=
  match o with GenText (Some _) => False | _ => True end.

(** Trace of [k] failed attempts each followed by the 1-second delay. *)
Definition fail_trace (k : nat) : list event :=
  flat_map (fun i => [EvAttempt (S i); EvGenFailed (S i); EvSleep 1000]) (seq 0 k).

Definition count_attempts (es : list event) : nat :=
  List.length (filter (fun e => match e with EvAttempt _ => true | _ => false end) es).

(** The AI content the loop hands to database lesson [j] of module [i]. *)
Definition ai_content (enriched : json) (i j : nat) : json :=
  lesson_content (module_at enriched i) j.

Fixpoint lesson_positions (i j : nat) (ls : list LessonRow) : list (LessonRow * nat * nat) :=
  match ls with
  | [] => []
  | l :: r => (l, i, j) :: lesson_positions i (S j) r
  end.

(** Every database lesson with its module index and its index in the module. *)
Fixpoint course_positions (i : nat) (ms : list (list LessonRow)) : list (LessonRow * nat * nat) :=
  match ms with
  | [] => []
  | m :: r => lesson_positions i 0 m ++ course_positions (S i) r
  end.

Fixpoint run_steps (enriched : json) (ps : list (LessonRow * nat * nat)) : M unit :=
  match ps with
  | [] => ret tt
  | (l, i, j) :: r => lesson_step l (ai_content enriched i j) ;; run_steps enriched r
  end.

(** ** Concrete inputs *)

(** A generator mock that fails twice, then answers. *)
Definition mock_fail_twice (i : nat) : gen_outcome :=
  match i with 0 | 1 => GenThrows | _ => GenText (Some (js "[]")) end.

Definition mock_always_fails (_ : nat) : gen_outcome := GenThrows.

Definition lesson1 : LessonRow :=
  {| l_id := 1; l_title := js "Intro"; l_objectives := [js "old"]; l_isEnriched := false |}.

Definition lesson2 : LessonRow :=
  {| l_id := 2; l_title := js "Next"; l_objectives := []; l_isEnriched := false |}.

Definition course1 : CourseRow :=
  {| c_id := js "c1"; c_title := js "Course";
     c_modules := [{| m_title := js "M"; m_lessons := [1%N; 2%N] |}] |}.

Definition db1 : db :=
  {| courses := [course1]; lessons := [lesson1; lesson2];
     blocks := []; mcqs := []; videos := []; next_id := 10 |}.

Definition para (t : string) : json :=
  JObj [(k_type, JStr (js "paragraph")); (k_text, JStr (js t))].

Definition video (t : string) : json :=
  JObj [(k_type, JStr (js "video")); (k_text, JStr (js t))].

Definition mcq_block (q : string) (opts : list string) (answer : Z) (ex : jstr) : json :=
  JObj [(k_type, JStr (js "mcq")); (k_question, JStr (js q));
        (k_options, JArr (map (fun o => JStr (js o)) opts));
        (k_answer, JNum answer 0); (k_explanation, JStr ex)].

(** AI output with one module holding one lesson. *)
Definition ai_one_lesson : json :=
  JObj [(k_modules, JArr [JObj [(k_lessons, JArr [JObj [(k_content, JArr [para "A"])]])]])].

(** A block whose type is an upper-case variant. *)
Definition upper_para : json :=
  JObj [(k_type, JStr (js "PARAGRAPH")); (k_text, JStr (js "A"))].

Definition mixed_mcq : json :=
  JObj [(k_type, JStr (js "Mcq")); (k_question, JStr (js "Q"));
        (k_options, JArr [JStr (js "a")]); (k_answer, JNum 0 0);
        (k_explanation, JStr (js "E"))].

(** An MCQ block whose explanation is the empty string. *)
Definition mcq_empty_explanation : json := mcq_block "Q" ["a"%string; "b"%string] 0 [].

(** AI module whose only lesson holds no valid block. *)
Definition ai_module_invalid : json :=
  JObj [(k_lessons, JArr [JObj [(k_content, JArr [upper_para])]])].

(** ** Rows written by an update *)

Definition mcq_row (m : N) (md : McqData) : MCQOptionRow :=
  {| mo_id := m; mo_question := md_question md; mo_options := md_options md;
     mo_answer := md_answer md; mo_explanation := md_explanation md |}.

(** What a converted block row records about its source create. *)
Definition block_row_of (lid : N) (ms : list MCQOptionRow) (b : BlockData) (r : ContentBlockRow) : Prop :=
  cb_order r = bd_order b /\ cb_type r = bd_type b /\ cb_text r = bd_text b
  /\ cb_language r = bd_language b /\ cb_videoUrl r = bd_videoUrl b /\ cb_lessonId r = lid
  /\ match bd_mcq b with
     | None => cb_mcqId r = None
     | Some md =>
         exists m, cb_mcqId r = Some m /\ In (mcq_row m md) ms
     end.

Definition mcq_create_of (b : json) : McqCreate :=
  {| mc_question := get b k_question; mc_options := get b k_options;
     mc_answer := get b k_answer; mc_explanation := get b k_explanation |}.

(** The row written for the valid block [b] at index [i]. *)
Definition row_for (ms : list MCQOptionRow) (lid : N) (i : nat) (b : json)
  (r : ContentBlockRow) : Prop :=
  cb_order r = Z.of_nat i /\ cb_lessonId r = lid
  /\ (get b k_type = Some (JStr (js "paragraph")) ->
      cb_type r = PARAGRAPH /\ cb_videoUrl r = None /\ cb_mcqId r = None)
  /\ (get b k_type = Some (JStr (js "video")) ->
      cb_type r = VIDEO /\ p_opt_string_u (get b k_text) = Some (cb_videoUrl r)
      /\ cb_mcqId r = None)
  /\ (get b k_type = Some (JStr (js "mcq")) ->
      cb_type r = MCQ /\ cb_videoUrl r = None
      /\ exists m md, cb_mcqId r = Some m /\ p_mcq (mcq_create_of b) = Some md
                      /\ In (mcq_row m md) ms).

(** Valid blocks of each kind, and the store after writing them to lesson 1. *)
Definition sample_valid : list json :=
  [para "A"; video "rust intro"; mcq_block "Q" ["a"%string; "b"%string] 1 (js "E")].

Definition db1_after : db :=
  match prisma_lesson_update db1 (lesson_update 1 sample_valid) with
  | Some d => d
  | None => db1
  end.

(** MCQ blocks the filter accepts: no options, and an answer past the end. *)
Definition mcq_no_options : json := mcq_block "Q" [] 0 (js "E").
Definition mcq_answer_out_of_range : json :=
  mcq_block "Q" ["a"%string; "b"%string] 5 (js "E").

Definition db1_bad_mcq : db :=
  snd (fst (lesson_step lesson1 (JArr [mcq_no_options; mcq_answer_out_of_range]) db1)).

(** The MCQ data of an MCQOption row, and the row a block's [mcqId] points
    to ([include: { mcq: true }] resolves the id). *)
Definition mcq_data_of (r : MCQOptionRow) : McqData :=
  {| md_question := mo_question r; md_options := mo_options r;
     md_answer := mo_answer r; md_explanation := mo_explanation r |}.

Definition mcq_lookup (d : db) (m : option N) : option McqData :=
  match m with
  | None => None
  | Some id => option_map mcq_data_of (find (fun r => N.eqb (mo_id r) id) (mcqs d))
  end.

(** What a reader of a lesson sees, generated ids left out: the lesson's
    fields, its blocks (with the MCQ each one references) and its video
    queries. *)
Definition block_view (d : db) (c : ContentBlockRow) :=
  (cb_order c, cb_type c, cb_text c, cb_language c, cb_videoUrl c,
   mcq_lookup d (cb_mcqId c)).

Definition bd_view (b : BlockData) :=
  (bd_order b, bd_type b, bd_text b, bd_language b, bd_videoUrl b, bd_mcq b).

Definition lesson_view (d : db) (id : N) :=
  (option_map (fun l => (l_title l, l_objectives l, l_isEnriched l)) (find_lesson d id),
   map (block_view d) (lesson_blocks d id),
   map vs_query (lesson_videos d id)).

(** Ids handed out by the store are fresh: every MCQOption id is below the
    counter. *)
Definition ids_fresh (d : db) : Prop :=
  Forall (fun r => (mo_id r < next_id d)%N) (mcqs d).

(** One valid MCQ block, written twice to lesson 1. *)
Definition content_mcq : json :=
  JArr [mcq_block "Q" ["a"%string; "b"%string] 0 (js "E")].

Definition db_once : db := snd (fst (lesson_step lesson1 content_mcq db1)).
Definition db_twice : db := snd (fst (lesson_step lesson1 content_mcq db_once)).

(** The object built around a bare array's kept blocks (lines 123-133). *)
Definition flat_wrap (kept : list json) : json :=
  JObj [(k_modules, JArr [JObj [(k_lessons, JArr [JObj [(k_content, JArr kept)]])]])].

(** A reply in a plain code fence, and a reply that is an object without
    [modules]. *)
Definition reply_plain_fence : jstr :=
  fence ++ [10%N] ++ jsq "{'modules':[]}" ++ [10%N] ++ fence.

Definition gen_plain_fence (attempt : nat) : gen_outcome :=
  GenText (Some reply_plain_fence).

Definition gen_no_modules (attempt : nat) : gen_outcome :=
  GenText (Some (jsq "{'title':'x'}")).

(** Referential integrity of the foreign keys of the schema (lines
    328-334): block and video rows name an existing lesson, and a block's
    [mcqId] names an existing MCQOption. *)
Definition fk_ok (d : db) : Prop :=
  Forall (fun c => In (cb_lessonId c) (map l_id (lessons d))
                   /\ match cb_mcqId c with
                      | Some m => In m (map mo_id (mcqs d))
                      | None => True
                      end) (blocks d)
  /\ Forall (fun v => In (vs_lessonId v) (map l_id (lessons d))) (videos d).

(** A store with a third lesson that is not part of course [c1]. *)
Definition lesson3 : LessonRow :=
  {| l_id := 3; l_title := js "Other"; l_objectives := [js "kept"]; l_isEnriched := true |}.

Definition block_of_3 : ContentBlockRow :=
  {| cb_id := 5; cb_order := 0%Z; cb_type := PARAGRAPH; cb_text := Some (js "old");
     cb_language := None; cb_videoUrl := None; cb_lessonId := 3; cb_mcqId := None |}.

Definition db2 : db :=
  {| courses := [course1]; lessons := [lesson1; lesson2; lesson3];
     blocks := [block_of_3]; mcqs := []; videos := []; next_id := 10 |}.

(** A reply with content for both lessons of [c1]. *)
Definition reply_two_lessons : jstr :=
  jsq "{'modules':[{'lessons':[{'content':[{'type':'paragraph','text':'A'}]},{'content':[{'type':'video','text':'q'}]}]}]}".

Definition gen_two_lessons (attempt : nat) : gen_outcome :=
  GenText (Some reply_two_lessons).

(** A reply whose second lesson has a string as its content. *)
Definition reply_bad_second : jstr :=
  jsq "{'modules':[{'lessons':[{'content':[{'type':'paragraph','text':'A'}]},{'content':'x'}]}]}".

Definition gen_bad_second (attempt : nat) : gen_outcome :=
  GenText (Some reply_bad_second).

(** A video block without text. *)
Definition video_no_text : json := JObj [(k_type, JStr (js "video"))].

(** The store after an accepted update of lesson [lid]. *)
Definition enrich_row (lid : N) (l : LessonRow) : LessonRow :=
  if N.eqb (l_id l) lid
  then {| l_id := l_id l; l_title := l_title l; l_objectives := []; l_isEnriched := true |}
  else l.

(** The title of the lesson row with id [id], if there is one. *)
Definition lesson_title (d : db) (id : N) : option jstr := option_map l_title (find_lesson d id).

(** The lesson row [id] is present and marked enriched, without objectives. *)
Definition marked_enriched (d : db) (id : N) : Prop :=
  exists l, find_lesson d id = Some l /\ l_isEnriched l = true /\ l_objectives l = [].

(** A text made only of the white space [trim] removes. *)
Definition all_ws (s : jstr) : bool := forallb js_ws s.

(** The reply of [reply_plain_fence] with the json-tagged fence. *)
Definition reply_json_fence : jstr :=
  fence_json ++ [10%N] ++ jsq "{'modules':[]}" ++ [10%N] ++ fence.

Definition gen_json_fence (attempt : nat) : gen_outcome :=
  GenText (Some reply_json_fence).

(* ================================================================== *)
(** * Proofs *)

(** ** Monad laws, pointwise *)

Lemma bind_ext {A B} (m : M A) (f g : A -> M B) d :
  (forall a d', f a d' = g a d') -> bind m f d = bind m g d.
Proof.
  intros H. unfold bind. destruct (m d) as [[[a|] d1] e1]; [|reflexivity].
  rewrite H. reflexivity.
Qed.

Lemma bind_congr {A B} (m1 m2 : M A) (f g : A -> M B) d :
  (forall d', m1 d' = m2 d') -> (forall a d', f a d' = g a d') -> bind m1 f d = bind m2 g d.
Proof.
  intros Hm Hf. unfold bind. rewrite Hm.
  destruct (m2 d) as [[[a|] d1] e1]; [|reflexivity]. rewrite Hf. reflexivity.
Qed.

Lemma bind_assoc {A B C} (m : M A) (f : A -> M B) (g : B -> M C) d :
  bind (bind m f) g d = bind m (fun a => bind (f a) g) d.
Proof.
  unfold bind. destruct (m d) as [[[a|] d1] e1]; [|reflexivity].
  destruct (f a d1) as [[[b|] d2] e2]; [|reflexivity].
  destruct (g b d2) as [[r d3] e3]. rewrite app_assoc. reflexivity.
Qed.

Lemma bind_ret_l {A B} (a : A) (f : A -> M B) d : bind (ret a) f d = f a d.
Proof. unfold bind, ret. destruct (f a d) as [[r d'] e]. reflexivity. Qed.

Lemma bind_ret_r (m : M unit) d : bind m (fun _ => ret tt) d = m d.
Proof.
  unfold bind, ret. destruct (m d) as [[[[]|] d1] e1]; rewrite ?app_nil_r; reflexivity.
Qed.

Lemma run_steps_app e ps1 ps2 d :
  run_steps e (ps1 ++ ps2) d = bind (run_steps e ps1) (fun _ => run_steps e ps2) d.
Proof.
  revert d. induction ps1 as [|[[l i] j] r IH]; intros d; simpl.
  - rewrite bind_ret_l. reflexivity.
  - rewrite bind_assoc. apply bind_ext. intros [] d'. apply IH.
Qed.

Lemma lessons_loop_steps e i j ls d :
  lessons_loop (module_at e i) j ls d = run_steps e (lesson_positions i j ls) d.
Proof.
  revert j d. induction ls as [|l r IH]; intros j d; simpl; [reflexivity|].
  apply bind_ext. intros [] d'. apply IH.
Qed.

Lemma modules_loop_steps e i ms d :
  modules_loop e i ms d = run_steps e (course_positions i ms) d.
Proof.
  revert i d. induction ms as [|m r IH]; intros i d; simpl; [reflexivity|].
  rewrite run_steps_app. apply bind_congr.
  - intros d'. apply lessons_loop_steps.
  - intros [] d'. apply IH.
Qed.

(** ** Strings and the validation filter *)

Lemma jstr_eqb_eq a b : jstr_eqb a b = true <-> a = b.
Proof.
  revert b. induction a as [|x a IH]; intros [|y b]; simpl; split; intros H;
    try discriminate; try reflexivity.
  - apply andb_true_iff in H as [H1 H2]. apply N.eqb_eq in H1. apply IH in H2. congruence.
  - injection H as -> ->. apply andb_true_iff. split; [apply N.eqb_refl|apply IH; reflexivity].
Qed.

Lemma get_some_obj v k x : get v k = Some x -> exists kvs, v = JObj kvs.
Proof. destruct v; simpl; try discriminate. eauto. Qed.

Lemma validate_cb_split t b :
  b <> JNull -> validate_cb t b = Some (block_ok b, block_warning t b).
Proof.
  intros Hb. unfold validate_cb, block_ok, block_warning, mcq_fields_bad.
  assert (read_prop b k_type = Some (get b k_type)) as ->
    by (destruct b; [congruence|reflexivity..]).
  destruct (negb (truthy (get b k_type)) || negb (includes_type (get b k_type)));
    simpl; [reflexivity|].
  destruct (str_is (get b k_type) (js "mcq") && _); reflexivity.
Qed.

Lemma valid_blocks_filter t bs :
  Forall not_null bs ->
  valid_blocks t bs = Some (filter block_ok bs, flat_map (block_warning t) bs).
Proof.
  induction 1 as [|b bs Hb Hbs IH]; simpl; [reflexivity|].
  rewrite (validate_cb_split t b Hb), IH. reflexivity.
Qed.

Lemma block_warning_iff t b : block_warning t b = [] <-> block_ok b = true.
Proof.
  unfold block_warning, block_ok.
  destruct (negb (truthy (get b k_type)) || negb (includes_type (get b k_type)));
    simpl; [split; discriminate|].
  destruct (str_is (get b k_type) (js "mcq") && mcq_fields_bad b); simpl;
    split; intros; (discriminate || reflexivity).
Qed.

Lemma block_warning_length t b : List.length (block_warning t b) <= 1.
Proof.
  unfold block_warning.
  destruct (_ || _); simpl; [lia|]. destruct (_ && _); simpl; lia.
Qed.

Lemma flat_filter_spec bs :
  Forall not_null bs ->
  flat_filter bs = Some (filter (fun b => truthy (get b k_type) && includes_type (get b k_type)) bs).
Proof.
  induction 1 as [|b bs Hb Hbs IH]; simpl; [reflexivity|].
  rewrite IH. destruct b; [congruence|reflexivity..].
Qed.

Lemma includes_type_iff v :
  includes_type v = true <-> exists s, In s block_types /\ v = Some (JStr s).
Proof.
  unfold includes_type. rewrite existsb_exists. split.
  - intros [s [Hin Hs]]. exists s. split; [assumption|].
    destruct v as [[| | | t | |]|]; simpl in Hs; try discriminate.
    apply jstr_eqb_eq in Hs. congruence.
  - intros [s [Hin ->]]. exists s. split; [assumption|]. simpl. apply jstr_eqb_eq. reflexivity.
Qed.

Lemma includes_truthy v : includes_type v = true -> truthy v = true.
Proof.
  intros H. apply includes_type_iff in H as [s [Hin ->]].
  simpl in Hin. destruct Hin as [<-|[<-|[<-|[]]]]; reflexivity.
Qed.

(** ** Retry loop *)

Ltac gen_fail_at H gen i :=
  let Hi := fresh "Hi" in
  pose proof (H i ltac:(lia)) as Hi;
  destruct (gen i) as [|[?|]]; simpl in Hi; [| contradiction |]; simpl.

Lemma retry_success gen k t :
  k < maxAttempts -> (forall i, i < k -> gen_fails (gen i)) -> gen k = GenText (Some t) ->
  retry gen = (fail_trace k ++ [EvAttempt (S k); EvResponse], Proceed (Some (clean_output t))).
Proof.
  unfold retry, maxAttempts. intros Hk Hf Hg.
  destruct k as [|[|[|k]]]; [| | |lia].
  - simpl. rewrite Hg. reflexivity.
  - simpl. gen_fail_at Hf gen 0; rewrite Hg; reflexivity.
  - simpl. gen_fail_at Hf gen 0; gen_fail_at Hf gen 1; rewrite Hg; reflexivity.
Qed.

Lemma retry_exhausted gen :
  (forall i, i < maxAttempts -> gen_fails (gen i)) ->
  retry gen = (fail_trace 2 ++ [EvAttempt 3; EvGenFailed 3; EvMaxAttempts], RetryAbort).
Proof.
  unfold retry, maxAttempts. intros Hf. simpl.
  gen_fail_at Hf gen 0; gen_fail_at Hf gen 1; gen_fail_at Hf gen 2; reflexivity.
Qed.

Lemma retry_at_most gen : count_attempts (fst (retry gen)) <= maxAttempts.
Proof.
  unfold retry, maxAttempts. simpl.
  destruct (gen 0) as [|[?|]]; simpl; [|unfold count_attempts; simpl; lia|];
  destruct (gen 1) as [|[?|]]; simpl; try (unfold count_attempts; simpl; lia);
  destruct (gen 2) as [|[?|]]; simpl; unfold count_attempts; simpl; lia.
Qed.

(* ================================================================== *)
(** * Claims *)

(** C2. The generator is called at most [maxAttempts] = 3 times; when the
    first [k < 3] attempts fail and attempt [k+1] answers, the loop leaves
    at once with that attempt's text (fence-stripped, as in the same [try]
    block), after a 1-second delay behind each failed attempt; when all
    three fail, the run returns with the store untouched, after two
    delays and no third one. *)
Theorem retry_bounded :
  (forall gen, count_attempts (fst (retry gen)) <= maxAttempts)
  /\ (forall gen k t,
        k < maxAttempts -> (forall i, i < k -> gen_fails (gen i)) ->
        gen k = GenText (Some t) ->
        retry gen = (fail_trace k ++ [EvAttempt (S k); EvResponse],
                     Proceed (Some (clean_output t))))
  /\ (forall gen d courseId c,
        find_course d courseId = Some c ->
        (forall i, i < maxAttempts -> gen_fails (gen i)) ->
        test_run d courseId gen =
          (GenAborted, d, fail_trace 2 ++ [EvAttempt 3; EvGenFailed 3; EvMaxAttempts])).
Proof.
  split; [exact retry_at_most|]. split; [exact retry_success|].
  intros gen d courseId c Hc Hf. unfold test_run. rewrite Hc, (retry_exhausted gen Hf).
  reflexivity.
Qed.

Lemma retry_bounded_witness :
  retry mock_fail_twice =
    (fail_trace 2 ++ [EvAttempt 3; EvResponse], Proceed (Some (clean_output (js "[]"))))
  /\ test_run db1 (js "c1") mock_always_fails =
    (GenAborted, db1, fail_trace 2 ++ [EvAttempt 3; EvGenFailed 3; EvMaxAttempts]).
Proof.
  split.
  - apply (proj1 (proj2 retry_bounded) mock_fail_twice 2 (js "[]")).
    + unfold maxAttempts; lia.
    + intros i Hi. destruct i as [|[|]]; simpl; [exact I|exact I|lia].
    + reflexivity.
  - apply (proj2 (proj2 retry_bounded) mock_always_fails db1 (js "c1") course1).
    + reflexivity.
    + intros i _. exact I.
Defined.

(** C3. The reconciliation loop visits the database lessons in order,
    handing database lesson [j] of module [i] the content of AI lesson [j]
    of AI module [i]; where the AI output has no module [i], or no lesson
    [j] in it, the content is the empty array, and the lesson step raises
    nothing and leaves the store as it was. *)
Theorem reconcile_positional :
  (forall enriched course d,
     reconcile enriched course d = run_steps enriched (course_positions 0 course) d)
  /\ (forall enriched mods i m ls j l,
        get enriched k_modules = Some (JArr mods) ->
        nth_error mods i = Some m -> truthy (Some m) = true ->
        get m k_lessons = Some (JArr ls) ->
        nth_error ls j = Some l -> truthy (Some l) = true ->
        ai_content enriched i j = or_default (get l k_content) (JArr []))
  /\ (forall enriched mods i j,
        get enriched k_modules = Some (JArr mods) ->
        (nth_error mods i = None
         \/ exists m ls, nth_error mods i = Some m /\ get m k_lessons = Some (JArr ls)
                         /\ nth_error ls j = None) ->
        ai_content enriched i j = JArr []
        /\ forall lesson d,
             lesson_step lesson (ai_content enriched i j) d
             = (Some tt, d, [EvNoValidBlocks (l_title lesson)])).
Proof.
  split; [intros; apply modules_loop_steps|]. split.
  - intros enriched mods i m ls j l Hmods Hm Htm Hls Hl Htl.
    unfold ai_content, module_at, lesson_content, or_default. rewrite Hmods. simpl.
    rewrite Hm, Htm, Hls. simpl. rewrite Hl, Htl. reflexivity.
  - intros enriched mods i j Hmods Hmiss.
    assert (ai_content enriched i j = JArr []) as Hc.
    { unfold ai_content, module_at, lesson_content. rewrite Hmods. simpl.
      destruct Hmiss as [Hn | [m [ls [Hm [Hls Hl]]]]].
      - rewrite Hn. destruct j; reflexivity.
      - rewrite Hm. destruct (get_some_obj _ _ _ Hls) as [kvs ->].
        change (or_default (Some (JObj kvs)) ?dflt) with (JObj kvs).
        rewrite Hls. simpl. rewrite Hl. reflexivity. }
    split; [exact Hc|]. intros lesson d. rewrite Hc. reflexivity.
Qed.

Lemma reconcile_positional_witness :
  ai_content ai_one_lesson 0 0 = JArr [para "A"]
  /\ ai_content ai_one_lesson 0 1 = JArr []
  /\ lesson_step lesson2 (ai_content ai_one_lesson 0 1) db1
     = (Some tt, db1, [EvNoValidBlocks (l_title lesson2)]).
Proof.
  split; [|split].
  - refine ((proj1 (proj2 reconcile_positional)) ai_one_lesson _ 0 _ _ 0 _ eq_refl eq_refl eq_refl eq_refl eq_refl eq_refl).
  - apply (proj2 (proj2 reconcile_positional) ai_one_lesson _ 0 1 eq_refl).
    right. eexists. eexists. split; [reflexivity|]. split; reflexivity.
  - apply (proj2 (proj2 reconcile_positional) ai_one_lesson _ 0 1 eq_refl).
    right. eexists. eexists. split; [reflexivity|]. split; reflexivity.
Defined.

(** C8. A lesson whose content keeps no valid block after filtering gets no
    write: the store is returned unchanged, the filter's warnings and the
    skip warning are logged, and the loop goes on with the next lesson. *)
Theorem empty_lesson_skipped :
  forall lesson enrichedModule j rest bs warnings d,
    lesson_content enrichedModule j = JArr bs ->
    valid_blocks (l_title lesson) bs = Some ([], warnings) ->
    lesson_step lesson (JArr bs) d
      = (Some tt, d, warnings ++ [EvNoValidBlocks (l_title lesson)])
    /\ lessons_loop enrichedModule j (lesson :: rest) d
       = (let '(r, d2, e2) := lessons_loop enrichedModule (S j) rest d in
          (r, d2, (warnings ++ [EvNoValidBlocks (l_title lesson)]) ++ e2)).
Proof.
  intros lesson em j rest bs warnings d Hc Hv.
  assert (Hstep : lesson_step lesson (JArr bs) d
                  = (Some tt, d, warnings ++ [EvNoValidBlocks (l_title lesson)])).
  { unfold lesson_step. rewrite Hv. reflexivity. }
  split; [exact Hstep|].
  cbn [lessons_loop]. unfold bind at 1. rewrite Hc, Hstep. reflexivity.
Qed.

Lemma empty_lesson_skipped_witness :
  lessons_loop ai_module_invalid 0 [lesson1] db1
  = (Some tt, db1, [EvInvalidType (l_title lesson1) upper_para;
                    EvNoValidBlocks (l_title lesson1)]).
Proof.
  rewrite (proj2 (empty_lesson_skipped lesson1 ai_module_invalid 0 [] [upper_para]
                    [EvInvalidType (l_title lesson1) upper_para] db1 eq_refl eq_refl)).
  reflexivity.
Defined.

(** C5 (as amended). A block is kept exactly when its type is one of the
    strings paragraph, video, mcq and, for mcq, its question is truthy, its
    options an array, its answer neither null nor undefined and its
    explanation truthy. On an array without null elements the filter keeps
    those blocks, in order, and logs one warning per dropped block and none
    per kept block, without raising. In the bare-array fallback the
    blocks without a valid type are removed at parse time, with no warning. *)
Theorem block_validation :
  (forall b,
     block_ok b = true
     <-> (exists s, In s block_types /\ get b k_type = Some (JStr s))
         /\ (str_is (get b k_type) (js "mcq") = true ->
             truthy (get b k_question) = true /\ is_array (get b k_options) = true
             /\ loose_null (get b k_answer) = false
             /\ truthy (get b k_explanation) = true))
  /\ (forall title bs,
        Forall not_null bs ->
        valid_blocks title bs = Some (filter block_ok bs, flat_map (block_warning title) bs))
  /\ (forall title b,
        (block_warning title b = [] <-> block_ok b = true)
        /\ List.length (block_warning title b) <= 1)
  /\ (forall bs,
        Forall not_null bs ->
        flat_filter bs
        = Some (filter (fun b => truthy (get b k_type) && includes_type (get b k_type)) bs)).
Proof.
  split; [|split; [exact valid_blocks_filter|split]].
  - intros b. unfold block_ok. rewrite <- includes_type_iff.
    pose proof (includes_truthy (get b k_type)) as Hit.
    destruct (includes_type (get b k_type)).
    + rewrite (Hit eq_refl). simpl.
      destruct (str_is (get b k_type) (js "mcq")); simpl; unfold mcq_fields_bad;
        destruct (truthy (get b k_question)), (is_array (get b k_options)),
                 (loose_null (get b k_answer)), (truthy (get b k_explanation));
        simpl; intuition congruence.
    + rewrite orb_true_r. simpl. intuition congruence.
  - intros title b. split; [apply block_warning_iff|apply block_warning_length].
  - exact flat_filter_spec.
Qed.

Lemma block_validation_witness :
  valid_blocks (js "Intro") [para "A"; upper_para; mcq_block "Q" ["a"%string] 0 (js "E")]
  = Some ([para "A"; mcq_block "Q" ["a"%string] 0 (js "E")],
          [EvInvalidType (js "Intro") upper_para]).
Proof.
  rewrite (proj1 (proj2 block_validation)).
  - reflexivity.
  - repeat constructor; discriminate.
Defined.

(** C5, refuted as stated: an MCQ block with a non-null but empty
    explanation is dropped, although every other field is well formed. *)
Lemma block_validation_counterexample :
  get mcq_empty_explanation k_explanation = Some (JStr [])
  /\ loose_null (get mcq_empty_explanation k_explanation) = false
  /\ truthy (get mcq_empty_explanation k_question) = true
  /\ is_array (get mcq_empty_explanation k_options) = true
  /\ loose_null (get mcq_empty_explanation k_answer) = false
  /\ valid_blocks (js "Intro") [mcq_empty_explanation]
     = Some ([], [EvInvalidMcq (js "Intro") mcq_empty_explanation]).
Proof. repeat split; vm_compute; reflexivity. Qed.

(** ** Effect of the nested update on the store *)

Lemma Forall2_nth {A B} (R : A -> B -> Prop) l1 l2 i a :
  Forall2 R l1 l2 -> nth_error l1 i = Some a -> exists b, nth_error l2 i = Some b /\ R a b.
Proof.
  intros HF. revert i. induction HF as [|x y l1 l2 Hxy HF IH]; intros i Hi.
  - destruct i; discriminate.
  - destruct i as [|i]; simpl in Hi.
    + injection Hi as <-. exists y. split; [reflexivity|assumption].
    + apply IH, Hi.
Qed.

Lemma all_some_map {A B} (f : A -> option B) l l' :
  all_some (map f l) = Some l' -> Forall2 (fun a b => f a = Some b) l l'.
Proof.
  revert l'. induction l as [|a l IH]; intros l' H; simpl in H.
  - injection H as <-. constructor.
  - destruct (f a) as [b|] eqn:Ef; [|discriminate].
    destruct (all_some (map f l)) as [r|] eqn:Er; simpl in H; [|discriminate].
    injection H as <-. constructor; [assumption|apply IH; reflexivity].
Qed.

Lemma all_some_map_complete {A B} (f : A -> option B) l l' :
  Forall2 (fun a b => f a = Some b) l l' -> all_some (map f l) = Some l'.
Proof. induction 1 as [|a b l l' Hab _ IH]; simpl; [reflexivity|]. rewrite Hab, IH. reflexivity. Qed.

Lemma nth_map_index s bs i :
  nth_error (map_index s bs) i = option_map (block_create (s + i)) (nth_error bs i).
Proof.
  revert s i. induction bs as [|b bs IH]; intros s i; destruct i as [|i]; simpl;
    try reflexivity.
  - rewrite Nat.add_0_r. reflexivity.
  - rewrite IH. f_equal. f_equal. lia.
Qed.

Lemma map_index_orders s bs : map bc_order (map_index s bs) = seq s (List.length bs).
Proof. revert s. induction bs as [|b bs IH]; intros s; simpl; [reflexivity|]. rewrite IH. reflexivity. Qed.



Lemma insert_blocks_spec lid next bds :
  let '(rows, ms, next') := insert_blocks lid next bds in
  Forall2 (block_row_of lid ms) bds rows.
Proof.
  revert next. induction bds as [|b bds IH]; intros next; simpl; [constructor|].
  destruct (bd_mcq b) as [md|] eqn:Em.
  - specialize (IH (next + 1 + 1)%N).
    destruct (insert_blocks lid (next + 1 + 1) bds) as [[rows ms] n2]. constructor.
    + unfold block_row_of; simpl. rewrite Em. repeat split.
      exists next. split; [reflexivity|]. left. reflexivity.
    + eapply Forall2_impl; [|exact IH]. intros x y [? [? [? [? [? [? Hm]]]]]].
      unfold block_row_of. repeat split; try assumption.
      destruct (bd_mcq x) as [md'|]; [|assumption]. destruct Hm as [mid [Hm1 Hm2]].
      exists mid. split; [assumption|]. right. assumption.
  - specialize (IH (next + 1)%N).
    destruct (insert_blocks lid (next + 1) bds) as [[rows ms] n2]. constructor.
    + unfold block_row_of; simpl. rewrite Em. repeat split.
    + exact IH.
Qed.

Lemma insert_videos_spec lid next qs :
  let '(rows, next') := insert_videos lid next qs in
  map vs_query rows = qs /\ Forall (fun v => vs_lessonId v = lid) rows.
Proof.
  revert next. induction qs as [|q qs IH]; intros next; simpl; [split; constructor|].
  specialize (IH (next + 1)%N). destruct (insert_videos lid (next + 1) qs) as [rows n2].
  destruct IH as [IH1 IH2]. simpl. split; [rewrite IH1; reflexivity|constructor; [reflexivity|assumption]].
Qed.

Lemma filter_all_true {A} (f : A -> bool) l : Forall (fun x => f x = true) l -> filter f l = l.
Proof. induction 1 as [|x l Hx _ IH]; simpl; [reflexivity|]. rewrite Hx, IH. reflexivity. Qed.

Lemma filter_filter_neg {A} (f : A -> bool) l : filter f (filter (fun x => negb (f x)) l) = [].
Proof. induction l as [|x l IH]; simpl; [reflexivity|]. destruct (f x) eqn:E; simpl; rewrite ?E; assumption. Qed.

Lemma find_lesson_update (d : db) lid objs enr :
  find (fun l => N.eqb (l_id l) lid)
    (map (fun l => if N.eqb (l_id l) lid
                   then {| l_id := l_id l; l_title := l_title l;
                           l_objectives := objs; l_isEnriched := enr |}
                   else l) (lessons d))
  = option_map (fun l => {| l_id := l_id l; l_title := l_title l;
                            l_objectives := objs; l_isEnriched := enr |})
      (find_lesson d lid).
Proof.
  unfold find_lesson. induction (lessons d) as [|l ls IH]; simpl; [reflexivity|].
  destruct (N.eqb (l_id l) lid) eqn:E; simpl; [rewrite E; reflexivity|rewrite E; exact IH].
Qed.

(** The store after an accepted update, read back for the updated lesson. *)
Lemma update_readback d u d' :
  lu_blocks_deleteMany u = true -> lu_videos_deleteMany u = true ->
  prisma_lesson_update d u = Some d' ->
  exists l bds qs ms,
    find_lesson d (lu_where u) = Some l
    /\ all_some (map p_block (lu_blocks_create u)) = Some bds
    /\ all_some (map p_string (lu_videos_create u)) = Some qs
    /\ find_lesson d' (lu_where u)
       = Some {| l_id := l_id l; l_title := l_title l;
                 l_objectives := lu_objectives u; l_isEnriched := lu_isEnriched u |}
    /\ Forall2 (block_row_of (lu_where u) ms) bds (lesson_blocks d' (lu_where u))
    /\ mcqs d' = mcqs d ++ ms
    /\ map vs_query (lesson_videos d' (lu_where u)) = qs.
Proof.
  intros Hdb Hdv H. unfold prisma_lesson_update in H. rewrite Hdb, Hdv in H.
  destruct (find_lesson d (lu_where u)) as [l|] eqn:El; [|discriminate].
  destruct (all_some (map p_block (lu_blocks_create u))) as [bds|] eqn:Eb; [|discriminate].
  destruct (all_some (map p_string (lu_videos_create u))) as [qs|] eqn:Eq; [|discriminate].
  pose proof (insert_blocks_spec (lu_where u) (next_id d) bds) as Hib.
  destruct (insert_blocks (lu_where u) (next_id d) bds) as [[rows ms] n1].
  pose proof (insert_videos_spec (lu_where u) n1 qs) as Hiv.
  destruct (insert_videos (lu_where u) n1 qs) as [vrows n2].
  injection H as <-. exists l, bds, qs, ms.
  split; [reflexivity|]. split; [reflexivity|]. split; [reflexivity|]. split.
  { unfold find_lesson at 1. simpl. rewrite find_lesson_update, El. reflexivity. }
  split.
  { unfold lesson_blocks. simpl. rewrite filter_app, filter_filter_neg. simpl.
    rewrite filter_all_true; [exact Hib|].
    clear -Hib. induction Hib as [|b r bds rows Hbr _ IH]; constructor; [|exact IH].
    destruct Hbr as [_ [_ [_ [_ [_ [-> _]]]]]]. apply N.eqb_refl. }
  split; [reflexivity|].
  unfold lesson_videos. simpl. rewrite filter_app, filter_filter_neg. simpl.
  destruct Hiv as [Hq Hl]. rewrite filter_all_true; [exact Hq|].
  eapply Forall_impl; [|exact Hl]. intros v ->. apply N.eqb_refl.
Qed.

Lemma p_block_spec c bd :
  p_block c = Some bd ->
  bd_order bd = Z.of_nat (bc_order c) /\ p_block_type (bc_type c) = Some (bd_type bd)
  /\ p_opt_string_u (bc_videoUrl c) = Some (bd_videoUrl bd)
  /\ match bc_mcq c with
     | None => bd_mcq bd = None
     | Some m => exists md, p_mcq m = Some md /\ bd_mcq bd = Some md
     end.
Proof.
  unfold p_block.
  destruct (p_block_type (bc_type c)) as [ty|]; [|discriminate].
  destruct (p_opt_string (bc_text c)) as [tx|]; [|discriminate].
  destruct (p_opt_string (bc_language c)) as [lg|]; [|discriminate].
  destruct (p_opt_string_u (bc_videoUrl c)) as [vu|]; [|discriminate].
  destruct (bc_mcq c) as [m|].
  - destruct (p_mcq m) as [md|] eqn:Em; simpl; [|discriminate].
    intros H; injection H as <-. simpl. repeat split. exists md. split; reflexivity.
  - intros H; injection H as <-. simpl. repeat split.
Qed.


(** The row written for the block at index [i] of the valid blocks. *)
Lemma row_facts i b bd lid ms r :
  p_block (block_create i b) = Some bd -> block_row_of lid ms bd r -> row_for ms lid i b r.
Proof.
  intros Hp Hr. unfold row_for. destruct (p_block_spec _ _ Hp) as [Ho [Ht [Hv Hm]]].
  destruct Hr as [Ro [Rt [_ [_ [Rv [Rl Rm]]]]]].
  split; [rewrite Ro, Ho; reflexivity|]. split; [exact Rl|].
  unfold block_create, type_string in Ht, Hv, Hm; simpl in Ht, Hv, Hm.
  split; [|split]; intros Hty; rewrite Hty in Ht, Hv, Hm; simpl in Ht, Hv, Hm;
    injection Ht as Ht; rewrite Rt, <- Ht, Rv.
  - injection Hv as <-. rewrite Hm in Rm. repeat split; assumption.
  - rewrite Hm in Rm. repeat split; assumption.
  - injection Hv as <-. destruct Hm as [md [Hmd Hbm]]. rewrite Hbm in Rm.
    destruct Rm as [m [Hm1 Hm2]]. split; [reflexivity|]. split; [reflexivity|].
    exists m, md. repeat split; assumption.
Qed.

Lemma p_string_some v q : p_string v = Some q -> v = Some (JStr q).
Proof. destruct v as [[| | | t | |]|]; simpl; try discriminate. congruence. Qed.

Lemma queries_of_texts (texts : list jsval) qs :
  all_some (map p_string texts) = Some qs -> map (fun q => Some (JStr q)) qs = texts.
Proof.
  intros H. apply all_some_map in H. induction H as [|t q ts qs' Htq _ IH]; [reflexivity|].
  simpl. rewrite IH, (p_string_some _ _ Htq). reflexivity.
Qed.

(** An accepted update of a lesson with the valid blocks [valid], read back. *)
Lemma written_rows lid valid d d' :
  prisma_lesson_update d (lesson_update lid valid) = Some d' ->
  exists l ms,
    find_lesson d lid = Some l
    /\ find_lesson d' lid
       = Some {| l_id := l_id l; l_title := l_title l; l_objectives := []; l_isEnriched := true |}
    /\ mcqs d' = mcqs d ++ ms
    /\ List.length (lesson_blocks d' lid) = List.length valid
    /\ (forall i b, nth_error valid i = Some b ->
          exists r, nth_error (lesson_blocks d' lid) i = Some r /\ row_for ms lid i b r)
    /\ map (fun v => Some (JStr (vs_query v))) (lesson_videos d' lid)
       = map (fun v => get v k_text) (video_blocks valid).
Proof.
  intros H.
  destruct (update_readback d (lesson_update lid valid) d' eq_refl eq_refl H)
    as [l [bds [qs [ms [Hl [Hb [Hq [Hl' [Hrows [Hm Hv]]]]]]]]]].
  simpl in *. exists l, ms. split; [exact Hl|]. split; [exact Hl'|]. split; [exact Hm|].
  apply all_some_map in Hb.
  split.
  { rewrite <- (Forall2_length Hrows), <- (Forall2_length Hb).
    rewrite <- (length_map bc_order), map_index_orders, length_seq. reflexivity. }
  split.
  - intros i b Hi.
    assert (Hc : nth_error (map_index 0 valid) i = Some (block_create i b))
      by (rewrite nth_map_index, Hi; reflexivity).
    destruct (Forall2_nth _ _ _ _ _ Hb Hc) as [bd [Hbd Hp]].
    destruct (Forall2_nth _ _ _ _ _ Hrows Hbd) as [r [Hr Hrow]].
    exists r. split; [exact Hr|]. eapply row_facts; eassumption.
  - rewrite <- map_map with (g := fun q => Some (JStr q)), Hv.
    apply queries_of_texts. exact Hq.
Qed.

Lemma str_is_eq v t : str_is v t = true -> v = Some (JStr t).
Proof.
  destruct v as [[| | | u | |]|]; simpl; try discriminate.
  intros H. apply jstr_eqb_eq in H. congruence.
Qed.

Lemma block_ok_type b : block_ok b = true -> exists s, In s block_types /\ get b k_type = Some (JStr s).
Proof.
  unfold block_ok. intros H. apply andb_true_iff in H as [H _].
  apply includes_type_iff. destruct (includes_type (get b k_type)); [reflexivity|].
  rewrite orb_true_r in H. discriminate.
Qed.

Lemma written_orders lid valid d d' :
  prisma_lesson_update d (lesson_update lid valid) = Some d' ->
  map cb_order (lesson_blocks d' lid) = map Z.of_nat (seq 0 (List.length valid)).
Proof.
  intros H. destruct (written_rows lid valid d d' H) as [l [ms [_ [_ [_ [Hlen [Hrows _]]]]]]].
  apply nth_error_ext. intros k. rewrite !nth_error_map, nth_error_seq.
  destruct (Nat.ltb k (List.length valid)) eqn:E.
  - apply Nat.ltb_lt in E. apply nth_error_Some in E.
    destruct (nth_error valid k) as [b|] eqn:Eb; [|congruence].
    destruct (Hrows k b Eb) as [r [Hr [Ho _]]]. rewrite Hr. simpl. rewrite Ho. reflexivity.
  - apply Nat.ltb_ge in E. rewrite <- Hlen in E. apply nth_error_None in E. rewrite E. reflexivity.
Qed.

(** C1. For a lesson whose filtered content keeps at least one block, the
    lesson step issues exactly one [lesson.update]: it sets [isEnriched],
    empties [objectives], clears the lesson's ContentBlocks and VideoSearch
    rows, creates one block per valid block with [order] its index (with a
    nested MCQOption exactly for mcq blocks) and one VideoSearch per video
    block carrying its text; once accepted, the store holds exactly those
    rows for the lesson. *)
Theorem lesson_write :
  forall lesson bs valid warnings d,
    valid_blocks (l_title lesson) bs = Some (valid, warnings) -> valid <> [] ->
    let u := lesson_update (l_id lesson) valid in
    lesson_step lesson (JArr bs) d
      = match prisma_lesson_update d u with
        | Some d' => (Some tt, d', warnings ++ [EvUpdated (l_title lesson)])
        | None => (None, d, warnings)
        end
    /\ lu_where u = l_id lesson /\ lu_isEnriched u = true /\ lu_objectives u = []
    /\ lu_blocks_deleteMany u = true /\ lu_videos_deleteMany u = true
    /\ map bc_order (lu_blocks_create u) = seq 0 (List.length valid)
    /\ (forall i b, nth_error valid i = Some b ->
          nth_error (lu_blocks_create u) i = Some (block_create i b)
          /\ (bc_mcq (block_create i b) <> None <-> str_is (get b k_type) (js "mcq") = true))
    /\ lu_videos_create u = map (fun v => get v k_text) (video_blocks valid)
    /\ (forall d', prisma_lesson_update d u = Some d' ->
          (exists l, find_lesson d' (l_id lesson) = Some l
                     /\ l_isEnriched l = true /\ l_objectives l = [])
          /\ map cb_order (lesson_blocks d' (l_id lesson))
             = map Z.of_nat (seq 0 (List.length valid))
          /\ (forall i b, nth_error valid i = Some b ->
                exists r, nth_error (lesson_blocks d' (l_id lesson)) i = Some r
                  /\ (str_is (get b k_type) (js "mcq") = true ->
                      exists m mo, cb_mcqId r = Some m /\ In mo (mcqs d') /\ mo_id mo = m))
          /\ map (fun v => Some (JStr (vs_query v))) (lesson_videos d' (l_id lesson))
             = map (fun v => get v k_text) (video_blocks valid)).
Proof.
  intros lesson bs valid warnings d Hv Hne u.
  split.
  { unfold lesson_step. rewrite Hv. destruct valid as [|b0 rest]; [congruence|].
    unfold bind, tell, update. fold u. simpl.
    destruct (prisma_lesson_update d u); rewrite ?app_nil_r; reflexivity. }
  do 5 (split; [reflexivity|]).
  split; [apply map_index_orders|].
  split.
  { intros i b Hi. split.
    - simpl. rewrite nth_map_index, Hi. reflexivity.
    - unfold block_create. simpl. destruct (str_is (get b k_type) (js "mcq"));
        split; congruence. }
  split; [reflexivity|].
  intros d' Hd.
  destruct (written_rows _ _ d d' Hd) as [l [ms [_ [Hl' [Hm [_ [Hrows Hvid]]]]]]].
  split; [eexists; split; [exact Hl'|split; reflexivity]|].
  split; [exact (written_orders _ _ d d' Hd)|].
  split; [|exact Hvid].
  intros i b Hi. destruct (Hrows i b Hi) as [r [Hr Hfor]]. exists r. split; [exact Hr|].
  intros Hmcq. apply str_is_eq in Hmcq.
  destruct Hfor as [_ [_ [_ [_ Hq]]]]. destruct (Hq Hmcq) as [_ [_ [m [md [Hm1 [_ Hin]]]]]].
  exists m, (mcq_row m md). split; [exact Hm1|]. split; [|reflexivity].
  rewrite Hm. apply in_or_app. right. exact Hin.
Qed.

Lemma lesson_write_witness :
  lesson_step lesson1 (JArr sample_valid) db1
  = (Some tt, db1_after, [EvUpdated (l_title lesson1)])
  /\ map cb_order (lesson_blocks db1_after 1) = [0; 1; 2]%Z
  /\ map vs_query (lesson_videos db1_after 1) = [js "rust intro"].
Proof.
  destruct (lesson_write lesson1 sample_valid sample_valid [] db1 eq_refl ltac:(discriminate))
    as [Hstep [_ [_ [_ [_ [_ [_ [_ [_ Hdb]]]]]]]]].
  assert (Hu : prisma_lesson_update db1 (lesson_update (l_id lesson1) sample_valid)
               = Some db1_after) by (vm_compute; reflexivity).
  split; [rewrite Hstep, Hu; reflexivity|].
  destruct (Hdb db1_after Hu) as [_ [Hord [_ Hvid]]].
  split; [exact Hord|].
  vm_compute in Hvid. vm_compute. congruence.
Defined.

(** C9. In an accepted write, the row of a video block has [videoUrl] equal
    to the block's text, which is a string and is also the query of one of
    the lesson's VideoSearch rows; the row of a paragraph or mcq block has
    a null [videoUrl]. *)
Theorem video_url_matches :
  forall lid valid d d',
    prisma_lesson_update d (lesson_update lid valid) = Some d' ->
    forall i b, nth_error valid i = Some b ->
      exists r, nth_error (lesson_blocks d' lid) i = Some r
        /\ (get b k_type = Some (JStr (js "video")) ->
            exists s, get b k_text = Some (JStr s) /\ cb_videoUrl r = Some s
                      /\ In s (map vs_query (lesson_videos d' lid)))
        /\ (get b k_type = Some (JStr (js "paragraph"))
            \/ get b k_type = Some (JStr (js "mcq")) -> cb_videoUrl r = None).
Proof.
  intros lid valid d d' Hd i b Hi.
  destruct (written_rows _ _ d d' Hd) as [l [ms [_ [_ [_ [_ [Hrows Hvid]]]]]]].
  destruct (Hrows i b Hi) as [r [Hr [_ [_ [Hp [Hvd Hm]]]]]].
  exists r. split; [exact Hr|]. split.
  - intros Hty. destruct (Hvd Hty) as [_ [Hu _]].
    assert (Hin : In (get b k_text) (map (fun v => get v k_text) (video_blocks valid))).
    { apply (in_map (fun v => get v k_text)). unfold video_blocks. apply filter_In. split.
      - eapply nth_error_In; exact Hi.
      - rewrite Hty. reflexivity. }
    rewrite <- Hvid in Hin. apply in_map_iff in Hin as [v [Hv Hvin]].
    exists (vs_query v). split; [congruence|]. split.
    + rewrite <- Hv in Hu. simpl in Hu. congruence.
    + apply in_map. exact Hvin.
  - intros [Hty|Hty]; [apply (Hp Hty)|apply (Hm Hty)].
Qed.

Lemma video_url_matches_witness :
  exists r, nth_error (lesson_blocks db1_after 1) 1 = Some r
    /\ cb_videoUrl r = Some (js "rust intro").
Proof.
  assert (Hu : prisma_lesson_update db1 (lesson_update 1 sample_valid) = Some db1_after)
    by (vm_compute; reflexivity).
  destruct (video_url_matches 1%N sample_valid db1 db1_after Hu 1 (video "rust intro") eq_refl)
    as [r [Hr [Hv _]]].
  exists r. split; [exact Hr|].
  destruct (Hv eq_refl) as [s [Hs [Hurl _]]].
  rewrite Hurl. simpl in Hs. congruence.
Defined.

(** C10. Type matching is exact: a block whose type is any string other
    than paragraph, video, mcq (upper- or mixed-case variants included) is
    dropped with an invalid-type warning; the row of a kept block has type
    PARAGRAPH, VIDEO or MCQ according to its lower-case type. *)
Theorem type_case_sensitive :
  (forall title b s,
     get b k_type = Some (JStr s) -> ~ In s block_types ->
     block_ok b = false /\ block_warning title b = [EvInvalidType title b])
  /\ block_ok upper_para = false /\ block_ok mixed_mcq = false
  /\ (forall lid valid d d',
        prisma_lesson_update d (lesson_update lid valid) = Some d' ->
        forall i b, nth_error valid i = Some b -> block_ok b = true ->
          exists r, nth_error (lesson_blocks d' lid) i = Some r
            /\ ((get b k_type = Some (JStr (js "paragraph")) /\ cb_type r = PARAGRAPH)
                \/ (get b k_type = Some (JStr (js "video")) /\ cb_type r = VIDEO)
                \/ (get b k_type = Some (JStr (js "mcq")) /\ cb_type r = MCQ))).
Proof.
  assert (Hdrop : forall title b s,
            get b k_type = Some (JStr s) -> ~ In s block_types ->
            block_ok b = false /\ block_warning title b = [EvInvalidType title b]).
  { intros title b s Hty Hnin.
    assert (Hinc : includes_type (get b k_type) = false).
    { destruct (includes_type (get b k_type)) eqn:E; [|reflexivity].
      apply includes_type_iff in E as [s' [Hin Hs']]. rewrite Hty in Hs'.
      injection Hs' as ->. contradiction. }
    unfold block_ok, block_warning. rewrite Hinc, orb_true_r. split; reflexivity. }
  split; [exact Hdrop|].
  split; [apply (Hdrop [] upper_para (js "PARAGRAPH") eq_refl); simpl; intuition discriminate|].
  split; [apply (Hdrop [] mixed_mcq (js "Mcq") eq_refl); simpl; intuition discriminate|].
  intros lid valid d d' Hd i b Hi Hok.
  destruct (written_rows _ _ d d' Hd) as [l [ms [_ [_ [_ [_ [Hrows _]]]]]]].
  destruct (Hrows i b Hi) as [r [Hr [_ [_ [Hp [Hvd Hm]]]]]].
  exists r. split; [exact Hr|].
  destruct (block_ok_type b Hok) as [s [Hin Hty]].
  simpl in Hin. destruct Hin as [<-|[<-|[<-|[]]]].
  - left. split; [exact Hty|apply (Hp Hty)].
  - right; left. split; [exact Hty|apply (Hvd Hty)].
  - right; right. split; [exact Hty|apply (Hm Hty)].
Qed.

Lemma type_case_sensitive_witness :
  exists r, nth_error (lesson_blocks db1_after 1) 2 = Some r /\ cb_type r = MCQ.
Proof.
  assert (Hu : prisma_lesson_update db1 (lesson_update 1 sample_valid) = Some db1_after)
    by (vm_compute; reflexivity).
  destruct (proj2 (proj2 (proj2 type_case_sensitive)) 1%N sample_valid db1 db1_after Hu 2
              (mcq_block "Q" ["a"%string; "b"%string] 1 (js "E")) eq_refl eq_refl)
    as [r [Hr Hcase]].
  exists r. split; [exact Hr|].
  destruct Hcase as [[H _]|[[H _]|[_ H]]]; [discriminate|discriminate|exact H].
Defined.

Lemma p_strings_map l os : p_strings l = Some os -> l = map JStr os.
Proof.
  revert os. induction l as [|x l IH]; intros os H; simpl in H.
  - injection H as <-. reflexivity.
  - destruct x; try discriminate.
    destruct (p_strings l) as [os'|] eqn:E; simpl in H; [|discriminate].
    injection H as <-. simpl. rewrite (IH os' eq_refl). reflexivity.
Qed.

Lemma p_mcq_spec b md :
  p_mcq (mcq_create_of b) = Some md ->
  get b k_question = Some (JStr (md_question md))
  /\ get b k_options = Some (JArr (map JStr (md_options md)))
  /\ p_int (get b k_answer) = Some (md_answer md).
Proof.
  unfold p_mcq, mcq_create_of; simpl.
  destruct (p_string (get b k_question)) as [q|] eqn:Eq; [|discriminate].
  destruct (p_string_list (get b k_options)) as [os|] eqn:Eo; [|discriminate].
  destruct (p_int (get b k_answer)) as [a|] eqn:Ea; [|discriminate].
  destruct (p_opt_string_u (get b k_explanation)) as [ex|]; [|discriminate].
  intros H. injection H as <-. simpl.
  split; [apply p_string_some, Eq|]. split; [|reflexivity].
  destruct (get b k_options) as [[| | | | l |]|]; simpl in Eo; try discriminate.
  rewrite (p_strings_map l os Eo). reflexivity.
Qed.

(** C7 (as amended). After an accepted write of valid blocks, every MCQ
    block row of the lesson references through its [mcqId] an MCQOption row
    created by that write, holding the block's question, its options (any
    array of strings) and its answer (any 32-bit integer). *)
Theorem mcq_rows_written :
  forall lid valid d d',
    prisma_lesson_update d (lesson_update lid valid) = Some d' ->
    Forall (fun b => block_ok b = true) valid ->
    exists ms, mcqs d' = mcqs d ++ ms
      /\ forall r, In r (lesson_blocks d' lid) -> cb_type r = MCQ ->
         exists b m mo, In b valid /\ get b k_type = Some (JStr (js "mcq"))
           /\ cb_mcqId r = Some m /\ In mo ms /\ mo_id mo = m
           /\ get b k_question = Some (JStr (mo_question mo))
           /\ get b k_options = Some (JArr (map JStr (mo_options mo)))
           /\ p_int (get b k_answer) = Some (mo_answer mo).
Proof.
  intros lid valid d d' Hd Hok.
  destruct (written_rows _ _ d d' Hd) as [l [ms [_ [_ [Hm [Hlen [Hrows _]]]]]]].
  exists ms. split; [exact Hm|].
  intros r Hr Hty. apply In_nth_error in Hr as [i Hi].
  assert (Hb : exists b, nth_error valid i = Some b).
  { destruct (nth_error valid i) as [b|] eqn:E; [eauto|].
    apply nth_error_None in E. rewrite <- Hlen in E. apply nth_error_None in E. congruence. }
  destruct Hb as [b Hb]. destruct (Hrows i b Hb) as [r' [Hr' [_ [_ [Hp [Hv Hq]]]]]].
  rewrite Hi in Hr'. injection Hr' as <-.
  assert (Hbok : block_ok b = true)
    by (rewrite Forall_forall in Hok; apply Hok; eapply nth_error_In; exact Hb).
  destruct (block_ok_type b Hbok) as [s [Hin Hs]].
  simpl in Hin. destruct Hin as [<-|[<-|[<-|[]]]].
  - destruct (Hp Hs) as [Ht _]. congruence.
  - destruct (Hv Hs) as [Ht _]. congruence.
  - destruct (Hq Hs) as [_ [_ [m [md [Hm1 [Hmd Hin]]]]]].
    destruct (p_mcq_spec b md Hmd) as [Q [O A]].
    exists b, m, (mcq_row m md). split; [eapply nth_error_In; exact Hb|].
    split; [exact Hs|]. split; [exact Hm1|]. split; [exact Hin|].
    split; [reflexivity|]. split; [exact Q|]. split; [exact O|exact A].
Qed.

Lemma mcq_rows_written_witness :
  exists ms, mcqs db1_after = mcqs db1 ++ ms.
Proof.
  assert (Hu : prisma_lesson_update db1 (lesson_update 1 sample_valid) = Some db1_after)
    by (vm_compute; reflexivity).
  destruct (mcq_rows_written 1%N sample_valid db1 db1_after Hu ltac:(repeat constructor))
    as [ms [Hms _]].
  exists ms. exact Hms.
Defined.

(** C7, refuted as stated: both MCQ blocks pass the filter and are written;
    the first one's MCQOption has no options, the second one's answer 5 is
    out of range for its two options. *)
Lemma mcq_rows_written_counterexample :
  fst (fst (lesson_step lesson1 (JArr [mcq_no_options; mcq_answer_out_of_range]) db1))
    = Some tt
  /\ map (fun c => (cb_type c, cb_mcqId c)) (lesson_blocks db1_bad_mcq 1)
     = [(MCQ, Some 10%N); (MCQ, Some 12%N)]
  /\ map (fun m => (mo_id m, List.length (mo_options m), mo_answer m)) (mcqs db1_bad_mcq)
     = [(10%N, 0, 0%Z); (12%N, 2, 5%Z)].
Proof. repeat split; vm_compute; reflexivity. Qed.

Lemma insert_blocks_ids lid next bds :
  let '(rows, ms, next') := insert_blocks lid next bds in
  (next <= next')%N
  /\ Forall (fun r => (next <= mo_id r < next')%N) ms
  /\ Forall2 (fun b r => match bd_mcq b with
                         | None => cb_mcqId r = None
                         | Some md => exists m, cb_mcqId r = Some m
                             /\ find (fun x => N.eqb (mo_id x) m) ms = Some (mcq_row m md)
                         end) bds rows.
Proof.
  revert next. induction bds as [|b bds IH]; intros next; simpl.
  { split; [lia|]. split; constructor. }
  destruct (bd_mcq b) as [md|] eqn:Em.
  - specialize (IH (next + 1 + 1)%N).
    destruct (insert_blocks lid (next + 1 + 1) bds) as [[rows ms] n2].
    destruct IH as [Hn [Hms Hf]]. simpl.
    split; [lia|]. split.
    + constructor; [simpl; lia|].
      eapply Forall_impl; [|exact Hms]. intros x Hx; simpl in Hx; lia.
    + constructor.
      * rewrite Em. exists next. split; [reflexivity|]. simpl. rewrite N.eqb_refl. reflexivity.
      * eapply Forall2_impl; [|exact Hf]. intros x y Hxy. cbv beta in Hxy |- *.
        destruct (bd_mcq x) as [md'|]; [|exact Hxy].
        destruct Hxy as [m [Hm Hfind]]. exists m. split; [exact Hm|]. simpl.
        destruct (N.eqb next m) eqn:E; [|exact Hfind].
        apply find_some in Hfind as [Hin Hy]. rewrite Forall_forall in Hms.
        specialize (Hms _ Hin). simpl in Hms, Hy.
        apply N.eqb_eq in E. apply N.eqb_eq in Hy. lia.
  - specialize (IH (next + 1)%N).
    destruct (insert_blocks lid (next + 1) bds) as [[rows ms] n2].
    destruct IH as [Hn [Hms Hf]]. simpl.
    split; [lia|]. split.
    + eapply Forall_impl; [|exact Hms]. intros x Hx; cbv beta in *; lia.
    + constructor; [rewrite Em; reflexivity|exact Hf].
Qed.

Lemma insert_videos_next lid next qs :
  let '(rows, next') := insert_videos lid next qs in (next <= next')%N.
Proof.
  revert next. induction qs as [|q qs IH]; intros next; simpl; [lia|].
  specialize (IH (next + 1)%N). destruct (insert_videos lid (next + 1) qs). lia.
Qed.

Lemma find_app_none {A} (f : A -> bool) l1 l2 :
  Forall (fun x => f x = false) l1 -> find f (l1 ++ l2) = find f l2.
Proof. induction 1 as [|x l Hx _ IH]; simpl; [reflexivity|]. rewrite Hx. exact IH. Qed.

Lemma mcq_data_of_row m md : mcq_data_of (mcq_row m md) = md.
Proof. destruct md. reflexivity. Qed.

Lemma map_view_rows (d : db) lid ms bds rows :
  Forall2 (block_row_of lid ms) bds rows ->
  Forall2 (fun b r => match bd_mcq b with
                      | None => cb_mcqId r = None
                      | Some md => mcq_lookup d (cb_mcqId r) = Some md
                      end) bds rows ->
  map (block_view d) rows = map bd_view bds.
Proof.
  intros H. induction H as [|b r bds rows Hbr _ IH]; intros H'; [reflexivity|].
  inversion H' as [|? ? ? ? Hm Hrest]; subst. simpl. rewrite (IH Hrest).
  destruct Hbr as [Ho [Ht [Hx [Hl [Hu _]]]]].
  unfold block_view, bd_view. rewrite Ho, Ht, Hx, Hl, Hu.
  destruct (bd_mcq b) as [md|]; rewrite Hm; reflexivity.
Qed.

(** A write with both [deleteMany] set, in a store with fresh ids: the
    lesson as read back depends only on the lesson's title and the
    converted payload, ids stay fresh, and no MCQOption row is removed. *)
Lemma update_view d u d' :
  lu_blocks_deleteMany u = true -> lu_videos_deleteMany u = true ->
  ids_fresh d -> prisma_lesson_update d u = Some d' ->
  exists l bds qs,
    find_lesson d (lu_where u) = Some l
    /\ all_some (map p_block (lu_blocks_create u)) = Some bds
    /\ all_some (map p_string (lu_videos_create u)) = Some qs
    /\ lesson_view d' (lu_where u)
       = (Some (l_title l, lu_objectives u, lu_isEnriched u), map bd_view bds, qs)
    /\ ids_fresh d'
    /\ (forall mo, In mo (mcqs d) -> In mo (mcqs d')).
Proof.
  intros Hdb Hdv Hfr H.
  destruct (update_readback d u d' Hdb Hdv H)
    as [l [bds [qs [ms [Hl [Hb [Hq [Hl' [Hrows [Hm Hv]]]]]]]]]].
  exists l, bds, qs. split; [exact Hl|]. split; [exact Hb|]. split; [exact Hq|].
  unfold prisma_lesson_update in H. rewrite Hl, Hb, Hq in H.
  pose proof (insert_blocks_ids (lu_where u) (next_id d) bds) as Hid.
  pose proof (insert_blocks_spec (lu_where u) (next_id d) bds) as Hib.
  destruct (insert_blocks (lu_where u) (next_id d) bds) as [[rows ms'] n1].
  pose proof (insert_videos_next (lu_where u) n1 qs) as Hn.
  destruct (insert_videos (lu_where u) n1 qs) as [vrows n2].
  destruct Hid as [Hn1 [Hms Hf2]].
  injection H as Hd'.
  assert (Ems : ms' = ms).
  { rewrite <- Hd' in Hm. simpl in Hm. apply app_inv_head in Hm. exact Hm. }
  subst ms'.
  assert (Hnext : next_id d' = n2) by (rewrite <- Hd'; reflexivity).
  assert (Hold : forall x, In x (mcqs d) -> N.eqb (mo_id x) (next_id d) = false
                 /\ (mo_id x < next_id d)%N).
  { intros x Hx. unfold ids_fresh in Hfr. rewrite Forall_forall in Hfr.
    specialize (Hfr x Hx). split; [apply N.eqb_neq; lia|exact Hfr]. }
  split.
  - unfold lesson_view. rewrite Hl', Hv. simpl. f_equal. f_equal.
    eapply map_view_rows; [exact Hrows|].
    assert (Hbl : lesson_blocks d' (lu_where u) = rows).
    { rewrite <- Hd'. unfold lesson_blocks. simpl. rewrite Hdb.
      rewrite filter_app, filter_filter_neg. simpl.
      apply filter_all_true. clear -Hib.
      induction Hib as [|b r bds rows Hbr _ IH]; constructor; [|exact IH].
      destruct Hbr as [_ [_ [_ [_ [_ [-> _]]]]]]. apply N.eqb_refl. }
    rewrite Hbl. eapply Forall2_impl; [|exact Hf2]. intros b r Hbr. cbv beta in Hbr |- *.
    destruct (bd_mcq b) as [md|]; [|exact Hbr].
    destruct Hbr as [m [-> Hfind]]. simpl. rewrite Hm.
    rewrite find_app_none.
    + rewrite Hfind. simpl. rewrite mcq_data_of_row. reflexivity.
    + apply Forall_forall. intros x Hx. apply N.eqb_neq.
      apply find_some in Hfind as [Hin Hy]. rewrite Forall_forall in Hms.
      specialize (Hms _ Hin). apply N.eqb_eq in Hy. simpl in Hy, Hms.
      destruct (Hold x Hx) as [_ Hlt]. lia.
  - split.
    + unfold ids_fresh. rewrite Hm, Hnext. apply Forall_app. split.
      * apply Forall_forall. intros x Hx. destruct (Hold x Hx) as [_ Hlt]. lia.
      * eapply Forall_impl; [|exact Hms]. intros x Hx. simpl in Hx. lia.
    + intros mo Hmo. rewrite Hm. apply in_or_app. left. exact Hmo.
Qed.

Lemma lesson_step_done lesson content d d1 ev :
  lesson_step lesson content d = (Some tt, d1, ev) ->
  exists bs valid ws,
    content = JArr bs /\ valid_blocks (l_title lesson) bs = Some (valid, ws)
    /\ ((valid = [] /\ d1 = d /\ ev = ws ++ [EvNoValidBlocks (l_title lesson)])
        \/ (valid <> []
            /\ prisma_lesson_update d (lesson_update (l_id lesson) valid) = Some d1
            /\ ev = ws ++ [EvUpdated (l_title lesson)])).
Proof.
  intros H. unfold lesson_step in H.
  destruct content as [| | | | bs |]; try discriminate.
  destruct (valid_blocks (l_title lesson) bs) as [[valid ws]|] eqn:Ev; [|discriminate].
  exists bs, valid, ws. split; [reflexivity|]. split; [exact Ev|].
  destruct valid as [|b rest].
  - left. unfold bind, tell in H. simpl in H. injection H as <- <-. auto.
  - right. unfold bind, tell, update in H. simpl in H.
    destruct (prisma_lesson_update d (lesson_update (l_id lesson) (b :: rest))) as [d'|];
      [|discriminate].
    injection H as <- <-. rewrite ?app_nil_r. split; [discriminate|]. auto.
Qed.

Lemma lesson_step_update lesson bs valid ws d d' :
  valid_blocks (l_title lesson) bs = Some (valid, ws) -> valid <> [] ->
  prisma_lesson_update d (lesson_update (l_id lesson) valid) = Some d' ->
  lesson_step lesson (JArr bs) d = (Some tt, d', ws ++ [EvUpdated (l_title lesson)]).
Proof.
  intros Hv Hne Hu. unfold lesson_step. rewrite Hv.
  destruct valid as [|b rest]; [congruence|].
  unfold bind, tell, update. simpl. rewrite Hu, ?app_nil_r. reflexivity.
Qed.

Lemma update_again lid valid d1 bds qs l :
  find_lesson d1 lid = Some l ->
  all_some (map p_block (lu_blocks_create (lesson_update lid valid))) = Some bds ->
  all_some (map p_string (lu_videos_create (lesson_update lid valid))) = Some qs ->
  exists d2, prisma_lesson_update d1 (lesson_update lid valid) = Some d2.
Proof.
  intros Hl Hb Hq. unfold prisma_lesson_update. simpl lu_where.
  rewrite Hl. rewrite Hb, Hq.
  destruct (insert_blocks _ _ _) as [[? ?] ?]. destruct (insert_videos _ _ _). eauto.
Qed.

(** C6 (as amended). Running a lesson's step writes, when it writes, all of
    the lesson's ContentBlocks and VideoSearch rows afresh, and removes no
    MCQOption row: the MCQOptions of the replaced blocks stay in the store.
    In a store with fresh ids, running the same step again on the result
    succeeds with the same log and leaves the lesson as read back (fields,
    blocks with the MCQ each references, video queries) unchanged. *)
Theorem rerun_same_view :
  forall lesson content d d1 ev,
    ids_fresh d ->
    lesson_step lesson content d = (Some tt, d1, ev) ->
    (forall mo, In mo (mcqs d) -> In mo (mcqs d1))
    /\ exists d2, lesson_step lesson content d1 = (Some tt, d2, ev)
                  /\ lesson_view d2 (l_id lesson) = lesson_view d1 (l_id lesson).
Proof.
  intros lesson content d d1 ev Hfr H.
  destruct (lesson_step_done _ _ _ _ _ H)
    as [bs [valid [ws [-> [Hv [[-> [-> ->]] | [Hne [Hu ->]]]]]]]].
  - split; [auto|]. exists d. split; [exact H|reflexivity].
  - destruct (update_view d (lesson_update (l_id lesson) valid) d1 eq_refl eq_refl Hfr Hu)
      as [l [bds [qs [Hl [Hb [Hq [Hview [Hfr1 Hkeep]]]]]]]].
    split; [exact Hkeep|].
    simpl lu_where in Hview.
    destruct (find_lesson d1 (l_id lesson)) as [l1|] eqn:El1.
    2:{ unfold lesson_view in Hview. rewrite El1 in Hview. discriminate. }
    destruct (update_again _ _ d1 bds qs l1 El1 Hb Hq) as [d2 Hu2].
    exists d2. split; [exact (lesson_step_update _ _ _ _ _ _ Hv Hne Hu2)|].
    destruct (update_view d1 (lesson_update (l_id lesson) valid) d2 eq_refl eq_refl Hfr1 Hu2)
      as [l' [bds' [qs' [Hl' [Hb' [Hq' [Hview' _]]]]]]].
    simpl lu_where in Hview'. rewrite Hview', Hview.
    rewrite Hb in Hb'. injection Hb' as <-. rewrite Hq in Hq'. injection Hq' as <-.
    simpl lu_where in Hl'. rewrite El1 in Hl'. injection Hl' as <-.
    unfold lesson_view in Hview. rewrite El1 in Hview. simpl in Hview |- *.
    injection Hview; intros; congruence.
Qed.

Lemma rerun_same_view_witness :
  ids_fresh db1
  /\ exists d2, lesson_step lesson1 content_mcq db_once = (Some tt, d2, [EvUpdated (l_title lesson1)])
                /\ lesson_view d2 1 = lesson_view db_once 1.
Proof.
  assert (Hf : ids_fresh db1) by (unfold ids_fresh; vm_compute; constructor).
  split; [exact Hf|].
  assert (H1 : lesson_step lesson1 content_mcq db1
               = (Some tt, db_once, [EvUpdated (l_title lesson1)])) by (vm_compute; reflexivity).
  exact (proj2 (rerun_same_view lesson1 content_mcq db1 db_once _ Hf H1)).
Defined.

(** C6, refuted as stated: the MCQOption row written by the first run
    (id 10) is not deleted by the second, and no block references it any
    more; the second run adds a new one (id 12), so the store after two runs
    differs from the store after one. *)
Lemma rerun_same_view_counterexample :
  map mo_id (mcqs db_once) = [10%N]
  /\ map mo_id (mcqs db_twice) = [10%N; 12%N]
  /\ map cb_mcqId (blocks db_once) = [Some 10%N]
  /\ map cb_mcqId (blocks db_twice) = [Some 12%N].
Proof. repeat split; vm_compute; reflexivity. Qed.

Lemma strip_prefix_app p s : strip_prefix p (p ++ s) = Some s.
Proof. induction p as [|x p IH]; simpl; [reflexivity|]. rewrite N.eqb_refl. exact IH. Qed.

Lemma trim_start_tick s : trim_start (96%N :: s) = 96%N :: s.
Proof. reflexivity. Qed.

Lemma read_prop_nonnull p k : p <> JNull -> read_prop p k = Some (get p k).
Proof. destruct p; [congruence|reflexivity..]. Qed.

Lemma flat_filter_null bs : In JNull bs -> flat_filter bs = None.
Proof.
  induction bs as [|b bs IH]; simpl; [intros []|]. intros [->|Hin]; [reflexivity|].
  rewrite (IH Hin). destruct (read_prop b k_type); reflexivity.
Qed.

Lemma parse_stage_modules o p ms :
  JSON_parse o = Some p -> p <> JNull -> get p k_modules = Some (JArr ms) ->
  parse_stage o = Parsed p.
Proof.
  intros Hp Hn Hm. unfold parse_stage. rewrite Hp, (read_prop_nonnull _ _ Hn), Hm.
  reflexivity.
Qed.

Lemma parse_stage_array o bs :
  JSON_parse o = Some (JArr bs) -> Forall not_null bs ->
  parse_stage o = Parsed (flat_wrap (filter (fun b => truthy (get b k_type)
                                                      && includes_type (get b k_type)) bs)).
Proof.
  intros Hp Hn. unfold parse_stage. rewrite Hp. simpl. rewrite (flat_filter_spec bs Hn).
  reflexivity.
Qed.

Lemma parse_stage_shape o p :
  JSON_parse o = Some p -> p <> JNull -> (forall bs, p <> JArr bs) ->
  (forall ms, get p k_modules <> Some (JArr ms)) ->
  parse_stage o = ShapeRejected p.
Proof.
  intros Hp Hn Ha Hm. unfold parse_stage. rewrite Hp, (read_prop_nonnull _ _ Hn).
  assert (E : negb (truthy (get p k_modules)) || negb (is_array (get p k_modules)) = true).
  { destruct (get p k_modules) as [[| | | | ms |]|]; simpl; rewrite ?orb_true_r; try reflexivity.
    exfalso. exact (Hm ms eq_refl). }
  rewrite E. destruct p as [| | | | bs |]; try reflexivity.
  exfalso. exact (Ha bs eq_refl).
Qed.

Lemma parse_stage_failed o :
  JSON_parse o = None \/ JSON_parse o = Some JNull
  \/ (exists bs, JSON_parse o = Some (JArr bs) /\ In JNull bs) ->
  parse_stage o = ParseFailed o.
Proof.
  unfold parse_stage. intros [H|[H|[bs [H Hin]]]]; rewrite H; [reflexivity|reflexivity|].
  simpl. rewrite (flat_filter_null bs Hin). reflexivity.
Qed.

(** X: how the parsed reply is classified. A non-null value whose
    [modules] is an array is used as it is; an array without [null]
    elements is wrapped into [{modules:[{lessons:[{content}]}]}], [content]
    keeping the blocks whose type is one of the three strings; any other
    non-null value is rejected. Unparsable text, a parsed [null], and an
    array with a [null] element fail parsing. Both failures end the run
    leaving the store as it was: a parse failure logs the stripped text
    handed to [JSON.parse], a rejected shape logs the parsed value. *)
Theorem parse_stage_classifies :
  (forall o p ms, JSON_parse o = Some p -> p <> JNull ->
     get p k_modules = Some (JArr ms) -> parse_stage o = Parsed p)
  /\ (forall o bs, JSON_parse o = Some (JArr bs) -> Forall not_null bs ->
        parse_stage o = Parsed (flat_wrap (filter (fun b => truthy (get b k_type)
                                                  && includes_type (get b k_type)) bs)))
  /\ (forall o p, JSON_parse o = Some p -> p <> JNull -> (forall bs, p <> JArr bs) ->
        (forall ms, get p k_modules <> Some (JArr ms)) -> parse_stage o = ShapeRejected p)
  /\ (forall o, JSON_parse o = None \/ JSON_parse o = Some JNull
        \/ (exists bs, JSON_parse o = Some (JArr bs) /\ In JNull bs) ->
        parse_stage o = ParseFailed o)
  /\ (forall d courseId gen c ev o,
        find_course d courseId = Some c -> retry gen = (ev, Proceed o) ->
        (parse_stage o = ParseFailed o ->
           test_run d courseId gen = (ParseAborted, d, ev ++ [EvParseFailed o]))
        /\ (forall p, parse_stage o = ShapeRejected p ->
              test_run d courseId gen = (ShapeAborted, d, ev ++ [EvNoModules p]))).
Proof.
  split; [exact parse_stage_modules|].
  split; [exact parse_stage_array|]. split; [exact parse_stage_shape|].
  split; [exact parse_stage_failed|].
  intros d courseId gen c ev o Hc Hr. unfold test_run. rewrite Hc, Hr.
  split; [intros Hp|intros p Hp]; rewrite Hp; reflexivity.
Qed.

Lemma parse_stage_classifies_witness :
  parse_stage (Some (jsq "{'modules':[]}")) = Parsed (JObj [(k_modules, JArr [])])
  /\ test_run db1 (js "c1") gen_no_modules
     = (ShapeAborted, db1, [EvAttempt 1; EvResponse; EvNoModules (JObj [(js "title", JStr (js "x"))])]).
Proof.
  split.
  - apply (proj1 parse_stage_classifies (Some (jsq "{'modules':[]}"))
             (JObj [(k_modules, JArr [])]) []); [vm_compute; reflexivity|discriminate|reflexivity].
  - refine (proj2 (proj2 (proj2 (proj2 (proj2 parse_stage_classifies)))
             db1 (js "c1") gen_no_modules course1 [EvAttempt 1; EvResponse]
             (Some (jsq "{'title':'x'}")) _ _) (JObj [(js "title", JStr (js "x"))]) _);
      vm_compute; reflexivity.
Defined.

(* ------------------------------------------------------------------ *)
(** ** Whole-run structure *)

Lemma lesson_step_state l c d r d' ev :
  lesson_step l c d = (r, d', ev) ->
  d' = d \/ exists valid, prisma_lesson_update d (lesson_update (l_id l) valid) = Some d'.
Proof.
  intros H. unfold lesson_step in H.
  destruct c as [| | | | bs |]; try (cbv [throw] in H; injection H as _ <- _; left; reflexivity).
  destruct (valid_blocks (l_title l) bs) as [[valid ws]|];
    [|cbv [throw] in H; injection H as _ <- _; left; reflexivity].
  destruct valid as [|b rest].
  - unfold bind, tell in H. simpl in H. injection H as _ <- _. left; reflexivity.
  - unfold bind, tell, update in H. simpl in H.
    destruct (prisma_lesson_update d (lesson_update (l_id l) (b :: rest))) as [d1|] eqn:E;
      injection H as _ <- _; [right; eauto|left; reflexivity].
Qed.

Lemma lesson_step_fail l c d d' ev :
  lesson_step l c d = (None, d', ev) -> d' = d.
Proof.
  intros H. unfold lesson_step in H.
  destruct c as [| | | | bs |]; try (cbv [throw] in H; injection H as <- _; reflexivity).
  destruct (valid_blocks (l_title l) bs) as [[valid ws]|];
    [|cbv [throw] in H; injection H as <- _; reflexivity].
  destruct valid as [|b rest].
  - unfold bind, tell in H. simpl in H. discriminate.
  - unfold bind, tell, update in H. simpl in H.
    destruct (prisma_lesson_update d (lesson_update (l_id l) (b :: rest))) as [d1|] eqn:E;
      [discriminate|injection H as <- _; reflexivity].
Qed.

Lemma run_steps_rel (R : db -> db -> Prop) e ps :
  (forall d, R d d) -> (forall a b c, R a b -> R b c -> R a c) ->
  (forall l i j d r d' ev, In (l, i, j) ps ->
     lesson_step l (ai_content e i j) d = (r, d', ev) -> R d d') ->
  forall d r d' ev, run_steps e ps d = (r, d', ev) -> R d d'.
Proof.
  intros Hrefl Htrans. induction ps as [|[[l i] j] ps IH]; intros Hstep d r d' ev H.
  - cbn [run_steps] in H. unfold ret in H. injection H as _ <- _. apply Hrefl.
  - cbn [run_steps] in H. unfold bind in H.
    destruct (lesson_step l (ai_content e i j) d) as [[r1 d1] e1] eqn:E1.
    assert (R d d1) by (eapply Hstep; [left; reflexivity|exact E1]).
    destruct r1 as [[]|].
    + destruct (run_steps e ps d1) as [[r2 d2] e2] eqn:E2. injection H as _ <- _.
      eapply Htrans; [eassumption|]. eapply IH; [|exact E2].
      intros; eapply Hstep; [right; eassumption|eassumption].
    + injection H as _ <- _. assumption.
Qed.

Lemma bind_some_inv {A B} (m : M A) (f : A -> M B) d b d' ev :
  bind m f d = (Some b, d', ev) ->
  exists a d1 ev1 ev2, m d = (Some a, d1, ev1) /\ f a d1 = (Some b, d', ev2) /\ ev = ev1 ++ ev2.
Proof.
  unfold bind. destruct (m d) as [[[a|] d1] ev1]; [|discriminate].
  destruct (f a d1) as [[r d2] ev2] eqn:E. intros H. injection H as -> <- <-.
  exists a, d1, ev1, ev2. auto.
Qed.

Lemma run_steps_fail e ps d d' ev :
  run_steps e ps d = (None, d', ev) ->
  exists pre l i j post ev1 ev2,
    ps = pre ++ (l, i, j) :: post
    /\ run_steps e pre d = (Some tt, d', ev1)
    /\ lesson_step l (ai_content e i j) d' = (None, d', ev2)
    /\ ev = ev1 ++ ev2.
Proof.
  revert d d' ev. induction ps as [|[[l i] j] ps IH]; intros d d' ev H.
  - cbn [run_steps] in H. discriminate.
  - cbn [run_steps] in H. unfold bind in H.
    destruct (lesson_step l (ai_content e i j) d) as [[r1 d1] e1] eqn:E1.
    destruct r1 as [[]|].
    + destruct (run_steps e ps d1) as [[r2 d2] e2] eqn:E2.
      injection H as Hr -> <-. subst r2.
      destruct (IH _ _ _ E2) as [pre [l' [i' [j' [post [ev1 [ev2 [Hps [Hpre [Hst Hev]]]]]]]]]].
      exists ((l, i, j) :: pre), l', i', j', post, (e1 ++ ev1), ev2.
      split; [rewrite Hps; reflexivity|]. split.
      * cbn [run_steps]. unfold bind. rewrite E1, Hpre. reflexivity.
      * split; [exact Hst|]. rewrite Hev, app_assoc. reflexivity.
    + injection H as -> ->.
      pose proof (lesson_step_fail _ _ _ _ _ E1) as ->.
      exists [], l, i, j, ps, [], ev. split; [reflexivity|]. split; [reflexivity|].
      split; [exact E1|reflexivity].
Qed.

Lemma test_run_state d cid gen r d' ev :
  test_run d cid gen = (r, d', ev) ->
  d' = d \/ exists c e rr ev2, find_course d cid = Some c
                                /\ reconcile e (course_tree d c) d = (rr, d', ev2).
Proof.
  unfold test_run. intros H.
  destruct (find_course d cid) as [c|]; [|injection H as _ <- _; left; reflexivity].
  cbv zeta in H.
  destruct (retry gen) as [ev1 [|o]]; [injection H as _ <- _; left; reflexivity|].
  destruct (parse_stage o) as [e|raw|p]; try (injection H as _ <- _; left; reflexivity).
  destruct (reconcile e (course_tree d c) d) as [[rr d2] e2] eqn:E.
  right. exists c, e, rr, e2. split; [reflexivity|]. rewrite E.
  destruct rr; injection H as _ <- _; reflexivity.
Qed.

Lemma test_run_reconciled d cid gen r d' ev :
  test_run d cid gen = (r, d', ev) -> r = Completed \/ r = DbAborted ->
  exists c o e ev1 rr ev2,
    find_course d cid = Some c /\ retry gen = (ev1, Proceed o) /\ parse_stage o = Parsed e
    /\ reconcile e (course_tree d c) d = (rr, d', ev2)
    /\ (r = Completed -> rr = Some tt) /\ (r = DbAborted -> rr = None).
Proof.
  unfold test_run. intros H Hr.
  destruct (find_course d cid) as [c|];
    [|injection H as <- _ _; destruct Hr; discriminate].
  cbv zeta in H.
  destruct (retry gen) as [ev1 [|o]]; [injection H as <- _ _; destruct Hr; discriminate|].
  destruct (parse_stage o) as [e|raw|p] eqn:Ep;
    try (injection H as <- _ _; destruct Hr; discriminate).
  destruct (reconcile e (course_tree d c) d) as [[rr d2] e2] eqn:E.
  exists c, o, e, ev1, rr, e2. split; [reflexivity|]. split; [reflexivity|].
  split; [exact Ep|].
  destruct rr as [[]|]; injection H as <- <- _; split; auto; split; intros; congruence.
Qed.

Lemma test_run_rel (R : db -> db -> Prop) d cid gen r d' ev :
  (forall x, R x x) -> (forall a b c, R a b -> R b c -> R a c) ->
  (forall c e l i j x rr y ev1, find_course d cid = Some c ->
     In (l, i, j) (course_positions 0 (course_tree d c)) ->
     lesson_step l (ai_content e i j) x = (rr, y, ev1) -> R x y) ->
  test_run d cid gen = (r, d', ev) -> R d d'.
Proof.
  intros Hr Ht Hs H.
  destruct (test_run_state _ _ _ _ _ _ H) as [->|[c [e [rr [ev2 [Hc He]]]]]]; [apply Hr|].
  unfold reconcile in He. rewrite modules_loop_steps in He.
  eapply run_steps_rel; [exact Hr|exact Ht| |exact He].
  intros. eapply Hs; eassumption.
Qed.

Lemma lesson_positions_in l i j i0 j0 ls :
  In (l, i, j) (lesson_positions i0 j0 ls) -> In l ls.
Proof.
  revert j0. induction ls as [|x ls IH]; intros j0; simpl; [intros []|].
  intros [H|H]; [injection H as -> _ _; left; reflexivity|right; eapply IH; exact H].
Qed.

Lemma course_positions_in l i j k ms :
  In (l, i, j) (course_positions k ms) -> In l (List.concat ms).
Proof.
  revert k. induction ms as [|m ms IH]; intros k; simpl; [intros []|].
  intros H. apply in_app_or in H as [H|H]; apply in_or_app;
    [left; eapply lesson_positions_in; exact H|right; eapply IH; exact H].
Qed.

Lemma update_shape d lid valid d' :
  prisma_lesson_update d (lesson_update lid valid) = Some d' ->
  exists l bds rows ms vrows n2,
    find_lesson d lid = Some l
    /\ Forall2 (block_row_of lid ms) bds rows
    /\ Forall (fun v => vs_lessonId v = lid) vrows
    /\ d' = {| courses := courses d;
               lessons := map (enrich_row lid) (lessons d);
               blocks := filter (fun c => negb (N.eqb (cb_lessonId c) lid)) (blocks d) ++ rows;
               mcqs := mcqs d ++ ms;
               videos := filter (fun v => negb (N.eqb (vs_lessonId v) lid)) (videos d) ++ vrows;
               next_id := n2 |}.
Proof.
  intros H. unfold prisma_lesson_update in H. simpl lu_where in H.
  destruct (find_lesson d lid) as [l|] eqn:El; [|discriminate].
  destruct (all_some (map p_block _)) as [bds|]; [|discriminate].
  destruct (all_some (map p_string _)) as [qs|]; [|discriminate].
  pose proof (insert_blocks_spec lid (next_id d) bds) as Hib.
  destruct (insert_blocks lid (next_id d) bds) as [[rows ms] n1].
  pose proof (insert_videos_spec lid n1 qs) as Hiv.
  destruct (insert_videos lid n1 qs) as [vrows n2].
  injection H as <-. exists l, bds, rows, ms, vrows, n2.
  split; [reflexivity|]. split; [exact Hib|]. split; [exact (proj2 Hiv)|].
  reflexivity.
Qed.

Lemma rows_lesson lid ms bds rows :
  Forall2 (block_row_of lid ms) bds rows -> Forall (fun r => cb_lessonId r = lid) rows.
Proof.
  induction 1 as [|b r bds rows Hbr _ IH]; constructor; [|exact IH].
  destruct Hbr as [_ [_ [_ [_ [_ [H _]]]]]]. exact H.
Qed.

Lemma find_map_fix (g : LessonRow -> LessonRow) id ls :
  (forall l, l_id (g l) = l_id l) -> (forall l, l_id l = id -> g l = l) ->
  find (fun l => N.eqb (l_id l) id) (map g ls) = find (fun l => N.eqb (l_id l) id) ls.
Proof.
  intros Hid Hfix. induction ls as [|l ls IH]; simpl; [reflexivity|].
  rewrite Hid. destruct (N.eqb (l_id l) id) eqn:E; [|exact IH].
  apply N.eqb_eq in E. rewrite (Hfix l E). reflexivity.
Qed.

Lemma enrich_row_id lid l : l_id (enrich_row lid l) = l_id l.
Proof. unfold enrich_row. destruct (N.eqb (l_id l) lid); reflexivity. Qed.

Lemma enrich_row_title lid l : l_title (enrich_row lid l) = l_title l.
Proof. unfold enrich_row. destruct (N.eqb (l_id l) lid); reflexivity. Qed.

Lemma filter_filter_sub {A} (f g : A -> bool) l :
  (forall x, f x = true -> g x = true) -> filter f (filter g l) = filter f l.
Proof.
  intros H. induction l as [|x l IH]; simpl; [reflexivity|].
  destruct (f x) eqn:Ef.
  - rewrite (H x Ef). simpl. rewrite Ef, IH. reflexivity.
  - destruct (g x); simpl; rewrite ?Ef; exact IH.
Qed.

Lemma filter_none {A} (f : A -> bool) l : Forall (fun x => f x = false) l -> filter f l = [].
Proof. induction 1 as [|x l Hx _ IH]; simpl; [reflexivity|]. rewrite Hx. exact IH. Qed.

Lemma update_other_lesson d lid valid d' id :
  prisma_lesson_update d (lesson_update lid valid) = Some d' -> id <> lid ->
  find_lesson d' id = find_lesson d id
  /\ lesson_blocks d' id = lesson_blocks d id
  /\ lesson_videos d' id = lesson_videos d id.
Proof.
  intros H Hne. destruct (update_shape _ _ _ _ H) as [l [bds [rows [ms [vrows [n2 [_ [Hr [Hv ->]]]]]]]]].
  apply rows_lesson in Hr.
  assert (Hneq : forall x, N.eqb x id = true -> negb (N.eqb x lid) = true).
  { intros x Hx. apply N.eqb_eq in Hx. subst x. apply negb_true_iff, N.eqb_neq. exact Hne. }
  split; [|split].
  - unfold find_lesson. simpl. apply find_map_fix; [apply enrich_row_id|].
    intros x Hx. unfold enrich_row. destruct (N.eqb (l_id x) lid) eqn:E; [|reflexivity].
    apply N.eqb_eq in E. congruence.
  - unfold lesson_blocks. simpl. rewrite filter_app, filter_filter_sub by (intros x; apply Hneq).
    rewrite (filter_none _ rows), app_nil_r; [reflexivity|].
    eapply Forall_impl; [|exact Hr]. intros x Hx. simpl in Hx. rewrite Hx. apply N.eqb_neq. congruence.
  - unfold lesson_videos. simpl. rewrite filter_app, filter_filter_sub by (intros x; apply Hneq).
    rewrite (filter_none _ vrows), app_nil_r; [reflexivity|].
    eapply Forall_impl; [|exact Hv]. intros x Hx. simpl in Hx. rewrite Hx. apply N.eqb_neq. congruence.
Qed.

Lemma update_tables d lid valid d' :
  prisma_lesson_update d (lesson_update lid valid) = Some d' ->
  (exists ms, mcqs d' = mcqs d ++ ms) /\ courses d' = courses d
  /\ forall id, lesson_title d' id = lesson_title d id.
Proof.
  intros H. destruct (update_shape _ _ _ _ H) as [l [bds [rows [ms [vrows [n2 [_ [_ [_ ->]]]]]]]]].
  split; [exists ms; reflexivity|]. split; [reflexivity|].
  intros id. unfold lesson_title, find_lesson. simpl. clear H.
  induction (lessons d) as [|x ls IH]; simpl; [reflexivity|].
  rewrite enrich_row_id. destruct (N.eqb (l_id x) id); [|exact IH].
  simpl. rewrite enrich_row_title. reflexivity.
Qed.

Lemma update_fk d lid valid d' :
  prisma_lesson_update d (lesson_update lid valid) = Some d' -> fk_ok d -> fk_ok d'.
Proof.
  intros H [Hb Hv].
  destruct (update_shape _ _ _ _ H) as [l [bds [rows [ms [vrows [n2 [Hl [Hr [Hvr ->]]]]]]]]].
  assert (Hids : map l_id (map (enrich_row lid) (lessons d)) = map l_id (lessons d)).
  { rewrite map_map. apply map_ext. apply enrich_row_id. }
  assert (Hlid : In lid (map l_id (lessons d))).
  { unfold find_lesson in Hl. apply find_some in Hl as [Hin Hx]. apply N.eqb_eq in Hx.
    apply in_map_iff. exists l. split; [exact Hx|exact Hin]. }
  unfold fk_ok. simpl. rewrite Hids. split; apply Forall_app; split.
  - apply Forall_forall. intros x Hx. apply filter_In in Hx as [Hx _].
    rewrite Forall_forall in Hb. destruct (Hb x Hx) as [H1 H2]. split; [exact H1|].
    destruct (cb_mcqId x); [|exact I]. rewrite map_app. apply in_or_app. left. exact H2.
  - clear -Hr Hlid. induction Hr as [|b r bds rows Hbr _ IH]; constructor; [|exact IH].
    destruct Hbr as [_ [_ [_ [_ [_ [Hli Hm]]]]]]. rewrite Hli. split; [exact Hlid|].
    destruct (bd_mcq b) as [md|]; [|rewrite Hm; exact I].
    destruct Hm as [m [-> Hin]]. rewrite map_app. apply in_or_app. right.
    change m with (mo_id (mcq_row m md)). apply in_map. exact Hin.
  - apply Forall_forall. intros x Hx. apply filter_In in Hx as [Hx _].
    rewrite Forall_forall in Hv. exact (Hv x Hx).
  - eapply Forall_impl; [|exact Hvr]. intros x Hx. simpl in Hx. rewrite Hx. exact Hlid.
Qed.

(** X: a run changes nothing of a lesson outside the course it enriches:
    the lesson row, its ContentBlocks and its VideoSearch rows stay as
    they were, whatever the outcome. *)
Theorem run_leaves_other_lessons :
  forall d cid gen r d' ev id,
    (forall c, find_course d cid = Some c ->
               ~ In id (map l_id (List.concat (course_tree d c)))) ->
    test_run d cid gen = (r, d', ev) ->
    find_lesson d' id = find_lesson d id
    /\ lesson_blocks d' id = lesson_blocks d id
    /\ lesson_videos d' id = lesson_videos d id.
Proof.
  intros d cid gen r d' ev id Hout H.
  refine (test_run_rel
            (fun x y => find_lesson y id = find_lesson x id
                        /\ lesson_blocks y id = lesson_blocks x id
                        /\ lesson_videos y id = lesson_videos x id)
            d cid gen r d' ev _ _ _ H).
  - intros x. auto.
  - intros a b c [H1 [H2 H3]] [H4 [H5 H6]]. split; [|split]; congruence.
  - intros c e l i j x rr y ev1 Hc Hin Hs.
    destruct (lesson_step_state _ _ _ _ _ _ Hs) as [->|[valid Hu]]; [auto|].
    apply (update_other_lesson _ _ _ _ _ Hu). intros Heq. apply (Hout c Hc).
    rewrite Heq. apply in_map. eapply course_positions_in. exact Hin.
Qed.

Lemma run_leaves_other_lessons_witness :
  find_lesson (snd (fst (test_run db2 (js "c1") gen_two_lessons))) 3 = Some lesson3
  /\ lesson_blocks (snd (fst (test_run db2 (js "c1") gen_two_lessons))) 3 = [block_of_3]
  /\ lesson_videos (snd (fst (test_run db2 (js "c1") gen_two_lessons))) 3 = [].
Proof.
  assert (Hrun : test_run db2 (js "c1") gen_two_lessons
                 = (fst (fst (test_run db2 (js "c1") gen_two_lessons)),
                    snd (fst (test_run db2 (js "c1") gen_two_lessons)),
                    snd (test_run db2 (js "c1") gen_two_lessons)))
    by (destruct (test_run db2 (js "c1") gen_two_lessons) as [[? ?] ?]; reflexivity).
  refine (run_leaves_other_lessons db2 (js "c1") gen_two_lessons _ _ _ 3 _ Hrun).
  intros c Hc. vm_compute in Hc. injection Hc as <-. vm_compute. intros [H|[H|[]]]; discriminate.
Defined.

(** X: a run never deletes or changes an MCQOption row (new ones are only
    appended) and never adds, removes or renames a lesson: every lesson id
    names a row before the run exactly when it does after it, with the same
    title. *)
Theorem run_keeps_tables :
  forall d cid gen r d' ev,
    test_run d cid gen = (r, d', ev) ->
    (exists ms, mcqs d' = mcqs d ++ ms)
    /\ forall id, lesson_title d' id = lesson_title d id.
Proof.
  intros d cid gen r d' ev H.
  refine (test_run_rel
            (fun x y => (exists ms, mcqs y = mcqs x ++ ms)
                        /\ forall id, lesson_title y id = lesson_title x id)
            d cid gen r d' ev _ _ _ H).
  - intros x. split; [exists []; symmetry; apply app_nil_r|auto].
  - intros a b c [[m1 H1] H2] [[m2 H4] H5].
    split; [exists (m1 ++ m2); rewrite H4, H1, app_assoc; reflexivity|intros id; congruence].
  - intros c e l i j x rr y ev1 _ _ Hs.
    destruct (lesson_step_state _ _ _ _ _ _ Hs) as [->|[valid Hu]].
    + split; [exists []; symmetry; apply app_nil_r|auto].
    + destruct (update_tables _ _ _ _ Hu) as [Hm [_ Ht]]. exact (conj Hm Ht).
Qed.

(** X: the foreign keys of the schema hold after any run if they held
    before: every ContentBlock and VideoSearch row names an existing
    lesson, every [mcqId] an existing MCQOption. *)
Theorem run_keeps_foreign_keys :
  forall d cid gen r d' ev,
    fk_ok d -> test_run d cid gen = (r, d', ev) -> fk_ok d'.
Proof.
  intros d cid gen r d' ev Hfk H.
  refine (test_run_rel (fun x y => fk_ok x -> fk_ok y) d cid gen r d' ev _ _ _ H Hfk).
  - auto.
  - auto.
  - intros c e l i j x rr y ev1 _ _ Hs.
    destruct (lesson_step_state _ _ _ _ _ _ Hs) as [->|[valid Hu]]; [auto|].
    exact (update_fk _ _ _ _ Hu).
Qed.

Lemma run_keeps_foreign_keys_witness :
  fk_ok (snd (fst (test_run db2 (js "c1") gen_two_lessons))).
Proof.
  assert (Hrun : test_run db2 (js "c1") gen_two_lessons
                 = (fst (fst (test_run db2 (js "c1") gen_two_lessons)),
                    snd (fst (test_run db2 (js "c1") gen_two_lessons)),
                    snd (test_run db2 (js "c1") gen_two_lessons)))
    by (destruct (test_run db2 (js "c1") gen_two_lessons) as [[? ?] ?]; reflexivity).
  refine (run_keeps_foreign_keys db2 (js "c1") gen_two_lessons _ _ _ _ Hrun).
  unfold fk_ok. vm_compute.
  split; [apply Forall_cons; [split; [right; right; left; reflexivity|exact I]|apply Forall_nil]
         |apply Forall_nil].
Defined.

Lemma run_keeps_tables_witness :
  (exists ms, mcqs (snd (fst (test_run db2 (js "c1") gen_two_lessons))) = mcqs db2 ++ ms)
  /\ forall id, lesson_title (snd (fst (test_run db2 (js "c1") gen_two_lessons))) id
                = lesson_title db2 id.
Proof.
  assert (Hrun : test_run db2 (js "c1") gen_two_lessons
                 = (fst (fst (test_run db2 (js "c1") gen_two_lessons)),
                    snd (fst (test_run db2 (js "c1") gen_two_lessons)),
                    snd (test_run db2 (js "c1") gen_two_lessons)))
    by (destruct (test_run db2 (js "c1") gen_two_lessons) as [[? ?] ?]; reflexivity).
  exact (run_keeps_tables db2 (js "c1") gen_two_lessons _ _ _ Hrun).
Defined.

(** X: the database writes of a run are not undone when a later lesson
    throws (a rejected update or a [TypeError] in the loop). For a run
    that ends in DbAborted, with [e] the content its generation and parse
    stages produced, the final store is exactly the one the lesson steps
    before the failing position wrote from [e]; the failing step writes
    nothing. *)
Theorem db_abort_keeps_earlier_writes :
  forall d cid gen d' ev,
    test_run d cid gen = (DbAborted, d', ev) ->
    exists c o e ev0 pre l i j post ev1 ev2,
      find_course d cid = Some c /\ retry gen = (ev0, Proceed o) /\ parse_stage o = Parsed e
      /\ course_positions 0 (course_tree d c) = pre ++ (l, i, j) :: post
      /\ run_steps e pre d = (Some tt, d', ev1)
      /\ lesson_step l (ai_content e i j) d' = (None, d', ev2).
Proof.
  intros d cid gen d' ev H.
  destruct (test_run_reconciled _ _ _ _ _ _ H (or_intror eq_refl))
    as [c [o [e [ev1 [rr [ev2 [Hc [Hr [Hp [He [_ Hn]]]]]]]]]]].
  rewrite (Hn eq_refl) in He. unfold reconcile in He. rewrite modules_loop_steps in He.
  destruct (run_steps_fail _ _ _ _ _ He)
    as [pre [l [i [j [post [e1 [e2 [Hps [Hpre [Hst _]]]]]]]]]].
  exists c, o, e, ev1, pre, l, i, j, post, e1, e2. auto 7.
Qed.

Lemma db_abort_keeps_earlier_writes_witness :
  List.length (lesson_blocks (snd (fst (test_run db1 (js "c1") gen_bad_second))) 1) = 1
  /\ exists c o e ev0 pre l i j post ev1 ev2,
      find_course db1 (js "c1") = Some c /\ retry gen_bad_second = (ev0, Proceed o)
      /\ parse_stage o = Parsed e
      /\ course_positions 0 (course_tree db1 c) = pre ++ (l, i, j) :: post
      /\ run_steps e pre db1 = (Some tt, snd (fst (test_run db1 (js "c1") gen_bad_second)), ev1)
      /\ lesson_step l (ai_content e i j) (snd (fst (test_run db1 (js "c1") gen_bad_second)))
         = (None, snd (fst (test_run db1 (js "c1") gen_bad_second)), ev2).
Proof.
  split; [vm_compute; reflexivity|].
  assert (Hrun : test_run db1 (js "c1") gen_bad_second
                 = (DbAborted, snd (fst (test_run db1 (js "c1") gen_bad_second)),
                    snd (test_run db1 (js "c1") gen_bad_second))) by (vm_compute; reflexivity).
  exact (db_abort_keeps_earlier_writes db1 (js "c1") gen_bad_second _ _ Hrun).
Defined.

(** X: in the bare-array fallback the content reaches only the first lesson
    of the first module; every other position reads an empty list, so those
    lessons are skipped. *)
Theorem flat_fallback_first_lesson :
  forall kept i j,
    ai_content (flat_wrap kept) i j
    = match i, j with O, O => JArr kept | _, _ => JArr [] end.
Proof.
  intros kept [|i] [|j]; try reflexivity.
  - destruct j; reflexivity.
  - destruct i; reflexivity.
  - destruct i; reflexivity.
Qed.

Lemma filter_warnings_prefix title pre post :
  Forall not_null pre ->
  exists kept ws, valid_blocks title pre = Some (kept, ws)
    /\ filter_warnings title (pre ++ JNull :: post) = ws.
Proof.
  induction 1 as [|b pre Hb _ IH]; simpl.
  - exists [], []. split; reflexivity.
  - rewrite (validate_cb_split _ _ Hb).
    destruct IH as [kept [ws [-> ->]]].
    do 2 eexists. split; reflexivity.
Qed.

Lemma valid_blocks_null title bs : In JNull bs -> valid_blocks title bs = None.
Proof.
  induction bs as [|b bs IH]; simpl; [intros []|]. intros [->|Hin]; [reflexivity|].
  destruct (validate_cb title b) as [[keep ev]|]; [|reflexivity].
  rewrite (IH Hin). reflexivity.
Qed.

(** X: how a lesson entry's [content] is read and when the step throws.
    A missing or falsy [content] ([null], empty string, [0], [false]) reads
    as an empty list; any truthy [content] is taken as it is. A content that
    is not an array makes the step throw before anything is written or
    logged. An array with a [null] element makes the step throw before
    anything is written, after logging the filter warnings of the blocks
    before the first [null]; the throw aborts the run. *)
Theorem content_edges :
  (forall em j l,
     index_opt (get em k_lessons) j = Some l -> truthy (Some l) = true ->
     (truthy (get l k_content) = false -> lesson_content em j = JArr [])
     /\ (forall c, get l k_content = Some c -> truthy (Some c) = true ->
                   lesson_content em j = c))
  /\ (forall lesson c d, (forall bs, c <> JArr bs) -> lesson_step lesson c d = (None, d, []))
  /\ (forall lesson pre post d, Forall not_null pre ->
        exists kept ws, valid_blocks (l_title lesson) pre = Some (kept, ws)
          /\ lesson_step lesson (JArr (pre ++ JNull :: post)) d = (None, d, ws)).
Proof.
  split; [|split].
  - intros em j l Hidx Hl. unfold lesson_content. rewrite Hidx.
    change (or_default (Some l) ?dflt) with (if truthy (Some l) then l else dflt).
    rewrite Hl. split.
    + intros Hf. unfold or_default. destruct (get l k_content) as [v|]; [|reflexivity].
      rewrite Hf. reflexivity.
    + intros c Hc Ht. rewrite Hc. unfold or_default. rewrite Ht. reflexivity.
  - intros lesson c d Hc. unfold lesson_step.
    destruct c as [| | | | bs |]; try reflexivity. exfalso. exact (Hc bs eq_refl).
  - intros lesson pre post d Hpre.
    destruct (filter_warnings_prefix (l_title lesson) pre post Hpre) as [kept [ws [Hv Hw]]].
    exists kept, ws. split; [exact Hv|].
    unfold lesson_step. rewrite valid_blocks_null by (apply in_or_app; right; left; reflexivity).
    unfold bind, tell, throw. rewrite Hw, app_nil_r. reflexivity.
Qed.

Lemma content_edges_witness :
  lesson_content (JObj [(k_lessons, JArr [JObj [(k_content, JStr [])]])]) 0 = JArr []
  /\ lesson_step lesson1 (JStr (js "x")) db1 = (None, db1, [])
  /\ lesson_step lesson1 (JArr [upper_para; JNull; para "A"]) db1
     = (None, db1, [EvInvalidType (l_title lesson1) upper_para]).
Proof.
  split; [|split].
  - apply (proj1 (proj1 content_edges (JObj [(k_lessons, JArr [JObj [(k_content, JStr [])]])])
                          0 (JObj [(k_content, JStr [])]) eq_refl eq_refl)).
    reflexivity.
  - apply (proj1 (proj2 content_edges)). intros bs. discriminate.
  - assert (Hnn : Forall not_null [upper_para])
      by (constructor; [unfold not_null; discriminate|constructor]).
    destruct (proj2 (proj2 content_edges) lesson1 [upper_para] [para "A"] db1 Hnn)
      as [kept [ws [Hv Hs]]].
    vm_compute in Hv. injection Hv as _ Ews. subst ws. exact Hs.
Defined.

Lemma all_some_none {A} (l : list (option A)) : In None l -> all_some l = None.
Proof.
  induction l as [|[x|] l IH]; simpl; [intros []| |reflexivity].
  intros [H|H]; [discriminate|]. rewrite (IH H). reflexivity.
Qed.

Ltac none_match :=
  repeat match goal with
         | |- context [match ?x with Some _ => _ | None => _ end] => destruct x
         end; reflexivity.

Lemma p_block_bad_text b i :
  truthy (get b k_text) = true -> p_string (get b k_text) = None ->
  p_block (block_create i b) = None.
Proof.
  intros Ht Hs.
  assert (Hx : p_opt_string (or_default (get b k_text) JNull) = None).
  { destruct (get b k_text) as [v|]; [|discriminate]. unfold or_default. rewrite Ht.
    destruct v; try reflexivity; discriminate. }
  unfold p_block, block_create. cbn [bc_type bc_text bc_language bc_videoUrl bc_mcq bc_order].
  rewrite Hx. destruct (p_block_type _); reflexivity.
Qed.

Lemma p_block_bad_mcq b i :
  str_is (get b k_type) (js "mcq") = true -> p_mcq (mcq_create_of b) = None ->
  p_block (block_create i b) = None.
Proof.
  intros Hs Hm.
  unfold p_block, block_create. cbn [bc_type bc_text bc_language bc_videoUrl bc_mcq bc_order].
  rewrite Hs.
  change (p_mcq {| mc_question := get b k_question; mc_options := get b k_options;
                   mc_answer := get b k_answer; mc_explanation := get b k_explanation |})
    with (p_mcq (mcq_create_of b)).
  rewrite Hm. none_match.
Qed.

Lemma p_mcq_bad b :
  p_string (get b k_question) = None \/ p_string_list (get b k_options) = None
  \/ p_int (get b k_answer) = None \/ p_opt_string_u (get b k_explanation) = None ->
  p_mcq (mcq_create_of b) = None.
Proof.
  unfold p_mcq, mcq_create_of. cbn [mc_question mc_options mc_answer mc_explanation].
  intros [H|[H|[H|H]]]; rewrite H; none_match.
Qed.

Lemma update_rejected_blocks d lid valid :
  all_some (map p_block (map_index 0 valid)) = None ->
  prisma_lesson_update d (lesson_update lid valid) = None.
Proof.
  intros H. unfold prisma_lesson_update. simpl lu_blocks_create. rewrite H.
  destruct (find_lesson d _); reflexivity.
Qed.

(** X: blocks the validation filter keeps but the database refuses. If a
    block to be written is a video whose text is not a string, has a truthy
    text that is not a string, or is an mcq whose question is not a string,
    whose options are not all strings, whose answer is not a 32-bit integer
    or whose explanation is not a string, the lesson update is rejected as a
    whole: the step throws without writing, and the run aborts. *)
Theorem db_rejects_blocks :
  forall lesson bs valid ws d b,
    valid_blocks (l_title lesson) bs = Some (valid, ws) -> In b valid ->
    (str_is (get b k_type) (js "video") = true /\ p_string (get b k_text) = None)
    \/ (truthy (get b k_text) = true /\ p_string (get b k_text) = None)
    \/ (str_is (get b k_type) (js "mcq") = true
        /\ (p_string (get b k_question) = None \/ p_string_list (get b k_options) = None
            \/ p_int (get b k_answer) = None \/ p_opt_string_u (get b k_explanation) = None)) ->
    prisma_lesson_update d (lesson_update (l_id lesson) valid) = None
    /\ lesson_step lesson (JArr bs) d = (None, d, ws).
Proof.
  intros lesson bs valid ws d b Hv Hin Hbad.
  assert (Hu : prisma_lesson_update d (lesson_update (l_id lesson) valid) = None).
  { destruct Hbad as [[Hty Hs]|[[Ht Hs]|[Hty Hq]]].
    - unfold prisma_lesson_update. simpl lu_videos_create.
      rewrite (all_some_none (map p_string (map (fun v => get v k_text)
                 (filter (fun b => str_is (get b k_type) (js "video")) valid)))).
      + none_match.
      + apply in_map_iff. exists (get b k_text). split; [exact Hs|].
        apply (in_map (fun v => get v k_text)). apply filter_In. split; assumption.
    - apply update_rejected_blocks. apply all_some_none.
      apply In_nth_error in Hin as [i Hi].
      assert (Hc : nth_error (map_index 0 valid) i = Some (block_create i b))
        by (rewrite nth_map_index, Hi; reflexivity).
      rewrite <- (p_block_bad_text b i Ht Hs). apply in_map. eapply nth_error_In. exact Hc.
    - apply update_rejected_blocks. apply all_some_none.
      apply In_nth_error in Hin as [i Hi].
      assert (Hc : nth_error (map_index 0 valid) i = Some (block_create i b))
        by (rewrite nth_map_index, Hi; reflexivity).
      rewrite <- (p_block_bad_mcq b i Hty (p_mcq_bad b Hq)). apply in_map.
      eapply nth_error_In. exact Hc. }
  split; [exact Hu|].
  unfold lesson_step. rewrite Hv. destruct valid as [|b0 rest]; [destruct Hin|].
  unfold bind, tell, update. simpl. rewrite Hu. rewrite ?app_nil_r. reflexivity.
Qed.

Lemma db_rejects_blocks_witness :
  prisma_lesson_update db1 (lesson_update 1 [para "A"; video_no_text]) = None
  /\ lesson_step lesson1 (JArr [para "A"; video_no_text]) db1 = (None, db1, []).
Proof.
  refine (db_rejects_blocks lesson1 [para "A"; video_no_text] [para "A"; video_no_text] []
            db1 video_no_text eq_refl _ _).
  - right. left. reflexivity.
  - left. split; reflexivity.
Defined.

Lemma update_marks d lid valid d' :
  prisma_lesson_update d (lesson_update lid valid) = Some d' -> marked_enriched d' lid.
Proof.
  intros H. destruct (update_shape _ _ _ _ H) as [l [bds [rows [ms [vrows [n2 [Hl [_ [_ ->]]]]]]]]].
  unfold marked_enriched, find_lesson. simpl. unfold enrich_row.
  rewrite find_lesson_update, Hl. simpl. eexists. split; [reflexivity|]. auto.
Qed.

Lemma step_keeps_marked l c x r y ev id :
  lesson_step l c x = (r, y, ev) -> marked_enriched x id -> marked_enriched y id.
Proof.
  intros Hs Hm. destruct (lesson_step_state _ _ _ _ _ _ Hs) as [->|[valid Hu]]; [exact Hm|].
  destruct (N.eq_dec id (l_id l)) as [->|Hne]; [exact (update_marks _ _ _ _ Hu)|].
  destruct (update_other_lesson _ _ _ _ id Hu Hne) as [Hf _].
  unfold marked_enriched. rewrite Hf. exact Hm.
Qed.

(** X: after a completed run, every lesson of the course that received at
    least one valid block at its position is marked enriched with empty
    objectives, even if other positions were processed after it. *)
Theorem completed_run_marks_lessons :
  forall d cid gen d' ev,
    test_run d cid gen = (Completed, d', ev) ->
    exists c o e ev1,
      find_course d cid = Some c /\ retry gen = (ev1, Proceed o) /\ parse_stage o = Parsed e
      /\ forall l i j bs valid ws,
           In (l, i, j) (course_positions 0 (course_tree d c)) ->
           ai_content e i j = JArr bs ->
           valid_blocks (l_title l) bs = Some (valid, ws) -> valid <> [] ->
           exists l', find_lesson d' (l_id l) = Some l'
                      /\ l_isEnriched l' = true /\ l_objectives l' = [].
Proof.
  intros d cid gen d' ev H.
  destruct (test_run_reconciled _ _ _ _ _ _ H (or_introl eq_refl))
    as [c [o [e [ev1 [rr [ev2 [Hc [Hr [Hp [He [Hs _]]]]]]]]]]].
  exists c, o, e, ev1. split; [exact Hc|]. split; [exact Hr|]. split; [exact Hp|].
  rewrite (Hs eq_refl) in He. unfold reconcile in He. rewrite modules_loop_steps in He.
  intros l i j bs valid ws Hin Hct Hv Hne.
  apply in_split in Hin as [pre [post Hps]]. rewrite Hps, run_steps_app in He.
  destruct (bind_some_inv _ _ _ _ _ _ He) as [[] [d1 [e1 [e2 [_ [Hrest _]]]]]].
  cbn [run_steps] in Hrest.
  destruct (bind_some_inv _ _ _ _ _ _ Hrest) as [[] [d2 [e3 [e4 [Hst [Hpost _]]]]]].
  assert (Hm : marked_enriched d2 (l_id l)).
  { destruct (lesson_step_done _ _ _ _ _ Hst)
      as [bs' [valid' [ws' [Hc' [Hv' [[Ev' _]|[_ [Hu _]]]]]]]].
    - rewrite Hct in Hc'. injection Hc' as Eb. subst bs'. rewrite Hv in Hv'.
      injection Hv' as Ev'' _. exfalso. apply Hne. congruence.
    - exact (update_marks _ _ _ _ Hu). }
  exact (run_steps_rel (fun x y => marked_enriched x (l_id l) -> marked_enriched y (l_id l))
           e post (fun x h => h) (fun a b c1 h1 h2 h => h2 (h1 h))
           (fun l0 i0 j0 x r y ev0 _ Hs0 => step_keeps_marked _ _ _ _ _ _ _ Hs0)
           d2 _ _ _ Hpost Hm).
Qed.

Lemma completed_run_marks_lessons_witness :
  marked_enriched (snd (fst (test_run db1 (js "c1") gen_two_lessons))) 1
  /\ marked_enriched (snd (fst (test_run db1 (js "c1") gen_two_lessons))) 2.
Proof.
  assert (Hrun : test_run db1 (js "c1") gen_two_lessons
                 = (Completed, snd (fst (test_run db1 (js "c1") gen_two_lessons)),
                    snd (test_run db1 (js "c1") gen_two_lessons))) by (vm_compute; reflexivity).
  destruct (completed_run_marks_lessons _ _ _ _ _ Hrun) as [c [o [e [ev1 [Hc [Hr [Hp Hall]]]]]]].
  vm_compute in Hc. injection Hc as Ec. subst c.
  vm_compute in Hr. injection Hr as _ Eo. subst o.
  vm_compute in Hp. injection Hp as Ee. subst e. split.
  - exact (Hall lesson1 0 0 [para "A"] [para "A"] [] ltac:(vm_compute; auto)
             eq_refl eq_refl ltac:(discriminate)).
  - exact (Hall lesson2 0 1 [video "q"] [video "q"] [] ltac:(vm_compute; auto)
             eq_refl eq_refl ltac:(discriminate)).
Defined.

(* ------------------------------------------------------------------ *)
(** ** Fence stripping with surrounding white space *)

Lemma all_ws_app a b : all_ws (a ++ b) = all_ws a && all_ws b.
Proof. unfold all_ws. apply forallb_app. Qed.

Lemma all_ws_rev a : all_ws (rev a) = all_ws a.
Proof.
  induction a as [|x a IH]; simpl; [reflexivity|].
  rewrite all_ws_app, IH. simpl. unfold all_ws. simpl.
  rewrite andb_true_r, andb_comm. reflexivity.
Qed.

Lemma trim_start_ws ws t : all_ws ws = true -> trim_start (ws ++ t) = trim_start t.
Proof.
  induction ws as [|c ws IH]; simpl; [reflexivity|].
  unfold all_ws. simpl. intros H. apply andb_prop in H as [Hc Hws].
  rewrite Hc. exact (IH Hws).
Qed.

Lemma trim_start_keep s c t :
  js_ws c = false -> trim_start (s ++ c :: t) = trim_start s ++ c :: t.
Proof.
  intros Hc. induction s as [|x s IH]; simpl; [rewrite Hc; reflexivity|].
  destruct (js_ws x); [exact IH|reflexivity].
Qed.

(** [trim] on a text that starts and ends with a backtick, with white
    space around it. *)
Lemma trim_ticked ws1 m ws2 :
  all_ws ws1 = true -> all_ws ws2 = true ->
  trim (ws1 ++ 96%N :: m ++ 96%N :: ws2) = 96%N :: m ++ [96%N].
Proof.
  intros H1 H2. unfold trim. rewrite trim_start_ws by exact H1.
  rewrite trim_start_tick.
  replace (rev (96%N :: m ++ 96%N :: ws2)) with (rev ws2 ++ 96%N :: rev m ++ [96%N])
    by (simpl; rewrite rev_app_distr; simpl; rewrite <- !app_assoc; reflexivity).
  rewrite trim_start_ws by (rewrite all_ws_rev; exact H2).
  rewrite trim_start_tick. simpl. rewrite rev_app_distr, rev_involutive. reflexivity.
Qed.

Lemma strip_prefix_app_l p q s : strip_prefix (p ++ q) (p ++ s) = strip_prefix q s.
Proof. induction p as [|x p IH]; simpl; [reflexivity|]. rewrite N.eqb_refl. exact IH. Qed.

(** A body that does not start with [json] still does not once a fence
    follows it. *)
Lemma no_json_tag body :
  strip_prefix (js "json") body = None -> strip_prefix (js "json") (body ++ fence) = None.
Proof.
  destruct body as [|a [|b [|c [|e r]]]]; cbn; intros H; try reflexivity;
    repeat match goal with
           | |- context [if ?t then _ else _] => destruct t
           end; try reflexivity; discriminate.
Qed.

Lemma json_parse_tick x : JSON_parse (Some (96%N :: x)) = None.
Proof.
  unfold JSON_parse. remember (2 * List.length (96%N :: x) + 2) as n eqn:En.
  destruct n as [|n]; [simpl in En; lia|]. reflexivity.
Qed.

Lemma clean_ticked ws1 m ws2 :
  all_ws ws1 = true -> all_ws ws2 = true ->
  clean_output (ws1 ++ 96%N :: m ++ 96%N :: ws2)
  = trim (replace_trailing_fence (replace_leading_fence (96%N :: m ++ [96%N]))).
Proof. intros H1 H2. unfold clean_output. rewrite trim_ticked by assumption. reflexivity. Qed.

(** C4 (code bug). The leading [replace] removes only a fence tagged
    [json]; the trailing one removes any closing fence. With white space
    around it, a reply fenced with ```json yields its trimmed body. A reply
    fenced with a plain ``` whose body does not start with [json] keeps its
    opening fence; a text starting with a backtick never parses, so such a
    reply aborts the run as a parse failure with nothing written, whatever
    its body. *)
Theorem plain_fence_not_stripped :
  (forall ws1 body ws2, all_ws ws1 = true -> all_ws ws2 = true ->
     clean_output (ws1 ++ fence_json ++ body ++ fence ++ ws2) = trim body)
  /\ (forall ws1 body ws2, all_ws ws1 = true -> all_ws ws2 = true ->
        strip_prefix (js "json") body = None ->
        clean_output (ws1 ++ fence ++ body ++ fence ++ ws2)
        = fence ++ rev (trim_start (rev body)))
  /\ (forall x, parse_stage (Some (fence ++ x)) = ParseFailed (Some (fence ++ x)))
  /\ (forall d cid gen c ws1 body ws2,
        find_course d cid = Some c ->
        gen 0 = GenText (Some (ws1 ++ fence ++ body ++ fence ++ ws2)) ->
        all_ws ws1 = true -> all_ws ws2 = true ->
        strip_prefix (js "json") body = None ->
        test_run d cid gen
        = (ParseAborted, d,
           [EvAttempt 1; EvResponse;
            EvParseFailed (Some (fence ++ rev (trim_start (rev body))))])).
Proof.
  assert (P2 : forall ws1 body ws2, all_ws ws1 = true -> all_ws ws2 = true ->
            strip_prefix (js "json") body = None ->
            clean_output (ws1 ++ fence ++ body ++ fence ++ ws2)
            = fence ++ rev (trim_start (rev body))).
  { intros ws1 body ws2 H1 H2 Hb.
    replace (ws1 ++ fence ++ body ++ fence ++ ws2)
      with (ws1 ++ 96%N :: ([96%N; 96%N] ++ body ++ [96%N; 96%N]) ++ 96%N :: ws2)
      by (cbn; rewrite <- app_assoc; reflexivity).
    rewrite clean_ticked by assumption.
    replace (96%N :: ([96%N; 96%N] ++ body ++ [96%N; 96%N]) ++ [96%N])
      with (fence ++ body ++ fence) by (cbn; rewrite <- app_assoc; reflexivity).
    unfold replace_leading_fence.
    change fence_json with (fence ++ js "json").
    rewrite strip_prefix_app_l, (no_json_tag _ Hb).
    unfold replace_trailing_fence.
    rewrite !rev_app_distr, <- app_assoc, strip_prefix_app.
    rewrite rev_app_distr, !rev_involutive.
    unfold trim. change (fence ++ body) with (96%N :: ([96%N; 96%N] ++ body)).
    rewrite trim_start_tick. change (96%N :: ([96%N; 96%N] ++ body)) with (fence ++ body).
    rewrite rev_app_distr. change (rev fence) with (96%N :: [96%N; 96%N]).
    rewrite trim_start_keep by reflexivity. rewrite rev_app_distr. reflexivity. }
  assert (P3 : forall x, parse_stage (Some (fence ++ x)) = ParseFailed (Some (fence ++ x))).
  { intros x. unfold parse_stage. change (fence ++ x) with (96%N :: ([96%N; 96%N] ++ x)).
    rewrite json_parse_tick. reflexivity. }
  split; [|split; [exact P2|split; [exact P3|]]].
  - intros ws1 body ws2 H1 H2.
    replace (ws1 ++ fence_json ++ body ++ fence ++ ws2)
      with (ws1 ++ 96%N :: ([96%N; 96%N; 106%N; 115%N; 111%N; 110%N] ++ body ++ [96%N; 96%N])
                ++ 96%N :: ws2)
      by (cbn; rewrite <- app_assoc; reflexivity).
    rewrite clean_ticked by assumption.
    replace (96%N :: ([96%N; 96%N; 106%N; 115%N; 111%N; 110%N] ++ body ++ [96%N; 96%N])
               ++ [96%N])
      with (fence_json ++ body ++ fence) by (cbn; rewrite <- app_assoc; reflexivity).
    unfold replace_leading_fence. rewrite strip_prefix_app.
    unfold replace_trailing_fence. rewrite rev_app_distr, strip_prefix_app, rev_involutive.
    reflexivity.
  - intros d cid gen c ws1 body ws2 Hc Hg H1 H2 Hb.
    unfold test_run, retry. rewrite Hc. cbv zeta. simpl retry_loop. rewrite Hg.
    rewrite (P2 _ _ _ H1 H2 Hb), P3. reflexivity.
Qed.

Lemma plain_fence_not_stripped_witness :
  clean_output ([32%N] ++ fence_json ++ ([10%N] ++ jsq "{'modules':[]}") ++ fence ++ [10%N])
  = jsq "{'modules':[]}"
  /\ test_run db1 (js "c1") gen_plain_fence
     = (ParseAborted, db1,
        [EvAttempt 1; EvResponse;
         EvParseFailed (Some (fence ++ rev (trim_start (rev ([10%N] ++ jsq "{'modules':[]}" ++ [10%N])))))]).
Proof.
  split.
  - rewrite (proj1 plain_fence_not_stripped [32%N] ([10%N] ++ jsq "{'modules':[]}") [10%N]
               eq_refl eq_refl).
    vm_compute. reflexivity.
  - exact (proj2 (proj2 (proj2 plain_fence_not_stripped)) db1 (js "c1") gen_plain_fence course1
             [] ([10%N] ++ jsq "{'modules':[]}" ++ [10%N]) [] eq_refl eq_refl eq_refl eq_refl
             eq_refl).
Defined.

(** C4: a reply in a plain ``` fence around a valid course object aborts
    the run as a parse failure, logging the text with its opening fence,
    while the same reply in a ```json fence is parsed and the run
    completes. *)
Lemma plain_fence_counterexample :
  test_run db1 (js "c1") gen_plain_fence
  = (ParseAborted, db1,
     [EvAttempt 1; EvResponse;
      EvParseFailed (Some (fence ++ [10%N] ++ jsq "{'modules':[]}"))])
  /\ fst (fst (test_run db1 (js "c1") gen_json_fence)) = Completed.
Proof. split; vm_compute; reflexivity. Qed.
